(** * The influx command shell: identifier lexer, INSERT scoping,
      source rewriting, error classification and response rendering.

    Shallow embedding of [cmd/influx/cli/cli.go].

    - Go strings are byte sequences; they are modelled by [string], whose
      characters are the 8-bit [ascii].  The two scanning closures handed to
      [strings.FieldsFunc] only ever single out ASCII characters (letters,
      digits, [_], the backslash and the double quote).  A byte of a
      multi-byte UTF-8 sequence, or an invalid byte, is at least 128, so it
      is classified exactly as the rune it belongs to and leaves the
      closure's state alone: scanning byte by byte yields the same fields
      as scanning rune by rune.
    - The closure of [parseDoubleQuotedIdentifier] updates a captured
      variable; it is modelled as a function from the state before to the
      answer and the state after, and [FieldsFunc] threads the state.
    - A Go map or slice can be nil or allocated, and [reflect.DeepEqual]
      tells the two apart; tags and columns of a series are options.
    - The grammar library (parser, printer) and the transport are outside
      the shell; [ExecuteQuery] takes them as parameters.
    - Output is modelled by what is written, in order: the lines handed to
      the column-aligning writer and the records handed to the csv writer,
      not the bytes these writers produce. *)

From Stdlib Require Import Strings.String Strings.Ascii ZArith Bool Lia Numbers.DecimalString.
From stdpp Require Import base list strings gmap sorting.

Local Open Scope char_scope.

(** ** Go's [strings] helpers *)

Module strings.

(** [strings.HasPrefix]. *)
Fixpoint HasPrefix (s p : string) {struct p} : bool :=
  match p, s with
  | EmptyString, _ => true
  | String _ _, EmptyString => false
  | String a p', String b s' => if Ascii.eqb a b then HasPrefix s' p' else false
  end.

(** [s[n:]] for [n <= len(s)]. *)
Fixpoint drop (n : nat) (s : string) : string :=
  match n, s with
  | O, _ => s
  | S _, EmptyString => EmptyString
  | S n', String _ s' => drop n' s'
  end.

(** [strings.TrimPrefix]: [s] without the leading [p], or [s] itself when
    [s] does not start with [p]. *)
Definition TrimPrefix (s p : string) : string :=
  if HasPrefix s p then drop (String.length p) s else s.

(** [strings.FieldsFunc] for a closure [f] that may update captured state:
    [f st ch] is the closure's answer on [ch] together with the state it
    leaves.  The closure is called once per character, left to right.
    [cur] is the field being scanned, if one is open (Go keeps its start
    index; the characters from there up to the cursor are the same data). *)
Fixpoint FieldsFunc_from {St : Type} (f : St -> ascii -> bool * St)
    (st : St) (cur : option string) (s : string) : list string :=
  match s with
  | EmptyString =>
      match cur with Some fld => [fld] | None => [] end
  | String ch rest =>
      let '(sep, st') := f st ch in
      if sep then
        match cur with
        | Some fld => fld :: FieldsFunc_from f st' None rest
        | None => FieldsFunc_from f st' None rest
        end
      else
        match cur with
        | Some fld => FieldsFunc_from f st' (Some (fld +:+ String ch EmptyString)) rest
        | None => FieldsFunc_from f st' (Some (String ch EmptyString)) rest
        end
  end.

Definition FieldsFunc {St : Type} (f : St -> ascii -> bool * St)
    (st : St) (s : string) : list string :=
  FieldsFunc_from f st None s.

End strings.

(** ** Character classes *)

(** The double quote character (code 34). *)
Definition dquote : ascii := "034".

Definition ascii_le (a b : ascii) : bool := (N_of_ascii a <=? N_of_ascii b)%N.

(** isWhitespace returns true if the rune is a space, tab, or newline. *)
Definition isWhitespace (ch : ascii) : bool :=
  Ascii.eqb ch " " || Ascii.eqb ch "009" || Ascii.eqb ch "010".

(** isLetter returns true if the rune is a letter. *)
Definition isLetter (ch : ascii) : bool :=
  (ascii_le "a" ch && ascii_le ch "z") || (ascii_le "A" ch && ascii_le ch "Z").

(** isDigit returns true if the rune is a digit. *)
Definition isDigit (ch : ascii) : bool := ascii_le "0" ch && ascii_le ch "9".

(** isIdentFirstChar: the rune can start an unquoted identifier. *)
Definition isIdentFirstChar (ch : ascii) : bool := isLetter ch || Ascii.eqb ch "_".

(** isNotIdentChar: the rune cannot occur in an unquoted identifier. *)
Definition isNotIdentChar (ch : ascii) : bool :=
  negb (isLetter ch || isDigit ch || Ascii.eqb ch "_").

(** ** The identifier lexer *)

Definition parseUnquotedIdentifier (stmt : string) : string * string :=
  match strings.FieldsFunc (fun (_ : unit) ch => (isNotIdentChar ch, tt)) tt stmt with
  | f0 :: _ => (f0, strings.TrimPrefix stmt f0)
  | [] => (EmptyString, stmt)
  end.

(** The closure of [parseDoubleQuotedIdentifier]; its captured variable
    [escapeNext] is the state. *)
Definition quoteSeparator (escapeNext : bool) (ch : ascii) : bool * bool :=
  if Ascii.eqb ch "\" then (false, true)
  else if Ascii.eqb ch dquote then
    if negb escapeNext then (true, escapeNext) else (false, false)
  else (false, escapeNext).

Definition parseDoubleQuotedIdentifier (stmt : string) : string * string :=
  match strings.FieldsFunc quoteSeparator false stmt with
  | f0 :: _ =>
      (f0, strings.TrimPrefix stmt (String dquote (f0 +:+ String dquote EmptyString)))
  | [] => (EmptyString, stmt)
  end.

Fixpoint parseNextIdentifier (stmt : string) : string * string :=
  match stmt with
  | EmptyString => (EmptyString, stmt)
  | String ch rest =>
      if isWhitespace ch then parseNextIdentifier rest
      else if isIdentFirstChar ch then parseUnquotedIdentifier stmt
      else if Ascii.eqb ch dquote then parseDoubleQuotedIdentifier stmt
      else (EmptyString, stmt)
  end.

(** [strings.EqualFold s t] for a [t] made of ASCII characters only, which is
    how the shell calls it (with the literals [insert] and [into]).  Go
    compares rune by rune under simple case folding.  Against an ASCII
    character, an ASCII character of [s] matches when it is the same letter
    in either case; the only other runes that fold to an ASCII character are
    U+017F (long s, bytes C5 BF), which folds to [s], and U+212A (Kelvin
    sign, bytes E2 84 AA), which folds to [k]. *)
Definition foldASCII (sr tr : ascii) : bool :=
  Ascii.eqb sr tr
  || (let lo := if ascii_le sr tr then sr else tr in
      let hi := if ascii_le sr tr then tr else sr in
      ascii_le "A" lo && ascii_le lo "Z"
      && (N_of_ascii hi =? N_of_ascii lo + 32)%N).

Fixpoint EqualFold (s t : string) : bool :=
  match t, s with
  | EmptyString, EmptyString => true
  | EmptyString, String _ _ => false
  | String _ _, EmptyString => false
  | String tr t', String sr s' =>
      if (N_of_ascii sr <? 128)%N then
        foldASCII sr tr && EqualFold s' t'
      else
        match s with
        | String "197" (String "191" s'') =>
            (Ascii.eqb tr "s" || Ascii.eqb tr "S") && EqualFold s'' t'
        | String "226" (String "132" (String "170" s'')) =>
            (Ascii.eqb tr "k" || Ascii.eqb tr "K") && EqualFold s'' t'
        | _ => false
        end
  end.

Local Close Scope char_scope.

(** ** Session state and the client's requests and replies *)

(** A value of a result row (Go's [interface{}]), by the cases that
    [interfaceToString] tells apart.  A floating-point value, and a value of
    any other type, is carried with the text that [%v] prints for it. *)
Inductive value : Type :=
  | VNil
  | VBool (b : bool)
  | VInt (n : Z)
  | VFloat (text : string)
  | VOther (text : string).

Module models.

(** Modelled from the spec: the declaration of [models.Row], a series of a
    result: name, tag mapping, column names and ordered rows of values.  A Go
    map or slice is either nil or allocated, which [reflect.DeepEqual] tells
    apart, hence the options. *)
Record Row := {
  Name : string;
  Tags : option (gmap string string);
  Columns : option (list string);
  Values : list (list value)
}.

End models.

Module client.

(** [client.Config], [client.Point], [client.BatchPoints] and [client.Query]
    with the fields that the shell's literals name. *)
Record Config := {
  Precision : string;
  WriteConsistency : string
}.

Record Point := { Raw : string }.

Record BatchPoints := {
  Points : list Point;
  bpDatabase : string;
  bpRetentionPolicy : string;
  bpPrecision : string;
  bpWriteConsistency : string
}.

Record Query := {
  Command : string;
  qDatabase : string;
  qRetentionPolicy : string;
  qChunked : bool;
  qChunkSize : Z;
  qNodeID : Z
}.

(** Modelled from the spec: the declaration of an informational message of a
    result, printed as [<level>: <text>.]. *)
Record Message := { Level : string; Text : string }.

(** Modelled from the spec: the declaration of [client.Result]: an ordered
    sequence of series plus informational messages. *)
Record Result := {
  Series : list models.Row;
  Messages : list Message
}.

(** Modelled from the spec: the declaration of [client.Response]: an ordered
    sequence of results. *)
Record Response := { Results : list Result }.

End client.

(** [CommandLine], the session: the fields read by the functions below. *)
Record CommandLine := {
  Database : string;
  RetentionPolicy : string;
  Pretty : bool;
  Format : string;
  Chunked : bool;
  ChunkSize : Z;
  NodeID : Z;
  IgnoreSignals : bool;
  ClientConfig : client.Config
}.

(** A Go [(T, error)] result; the error is kept as its message. *)
Inductive result (A : Type) : Type :=
  | Ok (a : A)
  | Err (msg : string).
Arguments Ok {A} a.
Arguments Err {A} msg.

(** ** INSERT scoping *)

Definition parseInto (c : CommandLine) (stmt : string) : client.BatchPoints :=
  let '(ident, stmt) := parseNextIdentifier stmt in
  let db := Database c in
  let rp := RetentionPolicy c in
  let '(db, ident, stmt) :=
    if strings.HasPrefix stmt "." then
      let '(ident', stmt') := parseNextIdentifier (strings.drop 1 stmt) in
      (ident, ident', stmt')
    else (db, ident, stmt) in
  let '(rp, stmt) :=
    if strings.HasPrefix stmt " " then (ident, strings.drop 1 stmt)
    else (rp, stmt) in
  {| client.Points := [ {| client.Raw := stmt |} ];
     client.bpDatabase := db;
     client.bpRetentionPolicy := rp;
     client.bpPrecision := client.Precision (ClientConfig c);
     client.bpWriteConsistency := client.WriteConsistency (ClientConfig c) |}.

Definition parseInsert (c : CommandLine) (stmt : string)
  : result client.BatchPoints :=
  let '(i, point) := parseNextIdentifier stmt in
  if negb (EqualFold i "insert") then
    Err ("found " +:+ i +:+ ", expected INSERT")
  else
    let '(i', r) := parseNextIdentifier point in
    if EqualFold i' "into" then Ok (parseInto c r)
    else
      Ok {| client.Points := [ {| client.Raw := point |} ];
            client.bpDatabase := Database c;
            client.bpRetentionPolicy := RetentionPolicy c;
            client.bpPrecision := client.Precision (ClientConfig c);
            client.bpWriteConsistency := client.WriteConsistency (ClientConfig c) |}.

(** ** Scope rewriting of SELECT sources *)

Module influxql.

(** The part of the query syntax tree that a walk over the sources of a
    SELECT statement goes through on its way to a measurement: the sources
    are measurements and sub-queries, and a sub-query holds a SELECT
    statement again.  What else a statement holds (fields, condition,
    grouping, target, ...) is kept as its text in [Clauses]: the walk over
    [Sources] changes none of it. *)
Record Measurement := {
  Database : string;
  RetentionPolicy : string;
  Name : string;
  Regex : option string
}.

Inductive Source : Type :=
  | SrcMeasurement (m : Measurement)
  | SrcSubQuery (Statement : SelectStatement)
with SelectStatement : Type :=
  | mkSelectStatement (Sources : list Source) (Clauses : string).

Definition Sources (s : SelectStatement) : list Source :=
  match s with mkSelectStatement srcs _ => srcs end.

Definition Clauses (s : SelectStatement) : string :=
  match s with mkSelectStatement _ cl => cl end.

(** A statement is a SELECT statement or of another kind, kept as text. *)
Inductive Statement : Type :=
  | StSelect (s : SelectStatement)
  | StOther (text : string).

(** [influxql.Query]. *)
Record Query := { Statements : list Statement }.

(** [influxql.WalkFunc] over sources, for a function that acts on the
    measurements it is shown and on no other node: [f m] is the measurement
    as the function leaves it. *)
Fixpoint WalkSource (f : Measurement -> Measurement) (src : Source) : Source :=
  match src with
  | SrcMeasurement m => SrcMeasurement (f m)
  | SrcSubQuery st => SrcSubQuery (WalkSelect f st)
  end
with WalkSelect (f : Measurement -> Measurement) (st : SelectStatement)
  : SelectStatement :=
  match st with
  | mkSelectStatement srcs cl => mkSelectStatement (List.map (WalkSource f) srcs) cl
  end.

Definition WalkSources (f : Measurement -> Measurement) (srcs : list Source)
  : list Source :=
  List.map (WalkSource f) srcs.

(** The measurement references of sources, in the order of the walk. *)
Fixpoint SourceMeasurements (src : Source) : list Measurement :=
  match src with
  | SrcMeasurement m => [m]
  | SrcSubQuery st => SelectMeasurements st
  end
with SelectMeasurements (st : SelectStatement) : list Measurement :=
  match st with
  | mkSelectStatement srcs _ => List.flat_map SourceMeasurements srcs
  end.

Definition StatementMeasurements (st : Statement) : list Measurement :=
  match st with
  | StSelect s => SelectMeasurements s
  | StOther _ => []
  end.

End influxql.

Definition nonEmpty (s : string) : bool := negb (String.eqb s "").

(** The function that [ExecuteQuery] walks the sources with. *)
Definition qualify (c : CommandLine) (t : influxql.Measurement)
  : influxql.Measurement :=
  let db :=
    if String.eqb (influxql.Database t) "" && nonEmpty (Database c)
    then Database c else influxql.Database t in
  let rp :=
    if String.eqb (influxql.RetentionPolicy t) "" && nonEmpty (RetentionPolicy c)
    then RetentionPolicy c else influxql.RetentionPolicy t in
  {| influxql.Database := db;
     influxql.RetentionPolicy := rp;
     influxql.Name := influxql.Name t;
     influxql.Regex := influxql.Regex t |}.

(** The loop of [ExecuteQuery] over the parsed statements. *)
Definition rewriteStatement (c : CommandLine) (stmt : influxql.Statement)
  : influxql.Statement :=
  match stmt with
  | influxql.StSelect (influxql.mkSelectStatement srcs cl) =>
      influxql.StSelect
        (influxql.mkSelectStatement (influxql.WalkSources (qualify c) srcs) cl)
  | influxql.StOther text => influxql.StOther text
  end.

Definition rewriteSources (c : CommandLine) (pq : influxql.Query)
  : influxql.Query :=
  {| influxql.Statements := List.map (rewriteStatement c) (influxql.Statements pq) |}.

(** [query] creates a query struct to be used with the client. *)
Definition query (c : CommandLine) (q : string) : client.Query :=
  {| client.Command := q;
     client.qDatabase := Database c;
     client.qRetentionPolicy := RetentionPolicy c;
     client.qChunked := Chunked c;
     client.qChunkSize := ChunkSize c;
     client.qNodeID := NodeID c |}.

(** What [ctx.Err()] can return besides nil. *)
Inductive ctxError : Type := Canceled | DeadlineExceeded.

Definition ctxErrorMessage (e : ctxError) : string :=
  match e with
  | Canceled => "context canceled"
  | DeadlineExceeded => "context deadline exceeded"
  end.

(** The error that [ExecuteQuery] reports for a transport error with message
    [msg], when [ctx.Err()] is [ctxErr]. *)
Definition classifyError (msg : string) (ctxErr : option ctxError) : string :=
  if String.eqb msg "" then
    match ctxErr with
    | Some Canceled => "aborted by user"
    | None => "no data received"
    | Some e => ctxErrorMessage e
    end
  else msg.

(** How a call of [ExecuteQuery] ends: the parser refused the query (nothing
    is sent), the transport failed on the query sent, or the response to the
    query sent is handed to [FormatResponse]. *)
Inductive outcome : Type :=
  | ParseFailed (err : string)
  | QueryFailed (sent : client.Query) (err : string)
  | Responded (sent : client.Query) (response : client.Response).

Section ExecuteQuery.

(** The grammar library: parser and printer of queries. *)
Variable ParseQuery : string -> result influxql.Query.
Variable QueryString : influxql.Query -> string.
(** The transport: the reply to a query, or the message of its error. *)
Variable QueryContext : client.Query -> result client.Response.
(** Whether the signal relay cancelled the context of the call. *)
Variable interrupted : bool.

(** The text of the query to send: rewritten when a retention policy is set. *)
Definition rewriteQuery (c : CommandLine) (q : string) : result string :=
  if nonEmpty (RetentionPolicy c) then
    match ParseQuery q with
    | Err err => Err err
    | Ok pq => Ok (QueryString (rewriteSources c pq))
    end
  else Ok q.

(** [ctx.Err()] after the call: the context is the background context when
    signals are ignored, and a cancellable child of it otherwise. *)
Definition ctxErr (c : CommandLine) : option ctxError :=
  if IgnoreSignals c then None
  else if interrupted then Some Canceled else None.

Definition ExecuteQuery (c : CommandLine) (q : string) : outcome :=
  match rewriteQuery c q with
  | Err err => ParseFailed err
  | Ok q' =>
      match QueryContext (query c q') with
      | Err msg => QueryFailed (query c q') (classifyError msg (ctxErr c))
      | Ok response => Responded (query c q') response
      end
  end.

End ExecuteQuery.

(** ** Response rendering *)

(** [strings.Join]. *)
Fixpoint Join (elems : list string) (sep : string) : string :=
  match elems with
  | [] => ""
  | [e] => e
  | e :: rest => e +:+ sep +:+ Join rest sep
  end.

(** [strings.Repeat]. *)
Fixpoint Repeat (s : string) (count : nat) : string :=
  match count with
  | O => ""
  | S n => s +:+ Repeat s n
  end.

(** [strings.Split] on a separator of one character: [cur] is the field
    scanned so far. *)
Fixpoint Split_from (sep : ascii) (cur : string) (s : string) : list string :=
  match s with
  | EmptyString => [cur]
  | String ch rest =>
      if Ascii.eqb ch sep then cur :: Split_from sep "" rest
      else Split_from sep (cur +:+ String ch EmptyString) rest
  end.

Definition Split (s : string) (sep : ascii) : list string := Split_from sep "" s.

(** Decimal text of an integer ([%d]). *)
Definition formatInt (n : Z) : string := NilEmpty.string_of_int (Z.to_int n).

Definition interfaceToString (v : value) : string :=
  match v with
  | VNil => ""
  | VBool b => if b then "true" else "false"
  | VInt n => formatInt n
  | VFloat text => text
  | VOther text => text
  end.

(** [sort.Strings]: ascending byte-wise order. *)
Definition string_le (a b : string) : Prop := String.leb a b = true.

#[global] Instance string_le_dec : RelDecision string_le :=
  fun a b => decide (String.leb a b = true).

Definition sortStrings (l : list string) : list string :=
  merge_sort string_le l.

(** The tags of a series as [key=value] texts: every entry of the map is
    appended and the list sorted again after each. *)
Definition gatherTags (tags : option (gmap string string)) : list string :=
  match tags with
  | None => []
  | Some m =>
      foldl (fun acc kv => sortStrings (acc ++ [kv.1 +:+ "=" +:+ kv.2])) []
            (map_to_list m)
  end.

(** [row.Columns...]: the elements of the slice, none for a nil slice. *)
Definition elems {A : Type} (s : option (list A)) : list A :=
  match s with Some l => l | None => [] end.

Definition isCSV (c : CommandLine) : bool := String.eqb (Format c) "csv".
Definition isColumn (c : CommandLine) : bool := String.eqb (Format c) "column".

(** The column names of a series: in csv format, [name] and [tags] come
    first when the series has a name, respectively tags. *)
Definition columnNames (c : CommandLine) (row : models.Row) : list string :=
  let tags := gatherTags (models.Tags row) in
  let names0 : list string := [] in
  let names1 :=
    if isCSV c then
      let n := if (0 <? length tags)%nat then "tags" :: names0 else names0 in
      if nonEmpty (models.Name row) then "name" :: n else n
    else names0 in
  names1 ++ elems (models.Columns row).

(** The lines of the values of a series. *)
Definition valueRows (c : CommandLine) (separator : string) (row : models.Row)
  : list string :=
  let tags := gatherTags (models.Tags row) in
  List.map
    (fun v =>
       let values0 : list string := [] in
       let values1 :=
         if isCSV c then
           let n := if nonEmpty (models.Name row)
                    then values0 ++ [models.Name row] else values0 in
           if (0 <? length tags)%nat then n ++ [Join tags ","] else n
         else values0 in
       Join (values1 ++ List.map interfaceToString v) separator)
    (models.Values row).

(** The body of the loop of [formatResults]: the lines of series [row], the
    [i]-th of its result. *)
Definition formatSeries (c : CommandLine) (separator : string)
    (suppressHeaders : bool) (i : nat) (row : models.Row) : list string :=
  let tags := gatherTags (models.Tags row) in
  let names := columnNames c row in
  (if (0 <? i)%nat && isColumn c && negb suppressHeaders then [""] else [])
  ++ (if isColumn c && negb suppressHeaders then
        (if nonEmpty (models.Name row) then ["name: " +:+ models.Name row] else [])
        ++ (if (0 <? length tags)%nat then ["tags: " +:+ Join tags ", "] else [])
      else [])
  ++ (if negb suppressHeaders then [Join names separator] else [])
  ++ (if isColumn c && negb suppressHeaders then
        [Join (List.map (fun columnName => Repeat "-" (String.length columnName)) names)
              separator]
      else [])
  ++ valueRows c separator row.

Fixpoint formatResults_from (c : CommandLine) (separator : string)
    (suppressHeaders : bool) (i : nat) (series : list models.Row) : list string :=
  match series with
  | [] => []
  | row :: rest =>
      formatSeries c separator suppressHeaders i row
      ++ formatResults_from c separator suppressHeaders (S i) rest
  end.

(** formatResults will behave differently if you are formatting for columns
    or csv. *)
Definition formatResults (c : CommandLine) (result : client.Result)
    (separator : string) (suppressHeaders : bool) : list string :=
  formatResults_from c separator suppressHeaders 0 (client.Series result).

(** [reflect.DeepEqual] on two tag maps, respectively two column slices: nil
    equals nil only, and allocated values are compared by content. *)
Definition tagsEqual (prev current : option (gmap string string)) : bool :=
  bool_decide (prev = current).

Definition columnsEqual (prev current : option (list string)) : bool :=
  bool_decide (prev = current).

Definition headersEqual (prev current : models.Row) : bool :=
  if negb (String.eqb (models.Name prev) (models.Name current)) then false
  else tagsEqual (models.Tags prev) (models.Tags current)
       && columnsEqual (models.Columns prev) (models.Columns current).

(** [var previousHeaders models.Row]: the zero value. *)
Definition zeroRow : models.Row :=
  {| models.Name := ""; models.Tags := None; models.Columns := None;
     models.Values := [] |}.

(** The first two statements of the loops of [writeCSV] and [writeColumns],
    which are the same: whether the headers of [result] are suppressed, and
    the value of [previousHeaders] after it. *)
Definition suppressHeaders (previousHeaders : models.Row) (result : client.Result)
  : bool :=
  match client.Series result with
  | [] => false
  | first :: _ => headersEqual previousHeaders first
  end.

Definition nextHeaders (previousHeaders : models.Row) (result : client.Result)
  : models.Row :=
  match client.Series result with
  | first :: _ =>
      if negb (suppressHeaders previousHeaders result) then
        {| models.Name := models.Name first;
           models.Tags := models.Tags first;
           models.Columns := models.Columns first;
           models.Values := [] |}
      else previousHeaders
  | [] => previousHeaders
  end.

(** [previousHeaders] after the loop has gone through [results]. *)
Definition headersAfter (previousHeaders : models.Row) (results : list client.Result)
  : models.Row :=
  foldl nextHeaders previousHeaders results.

Definition tab : string := String "009"%char EmptyString.

(** The records handed to the csv writer, in order. *)
Fixpoint writeCSV_from (c : CommandLine) (previousHeaders : models.Row)
    (results : list client.Result) : list (list string) :=
  match results with
  | [] => []
  | result :: rest =>
      let suppress := suppressHeaders previousHeaders result in
      let rows := formatResults c result tab suppress in
      List.map (fun r => Split r "009"%char) rows
      ++ writeCSV_from c (nextHeaders previousHeaders result) rest
  end.

Definition writeCSV (c : CommandLine) (response : client.Response)
  : list (list string) :=
  writeCSV_from c zeroRow (client.Results response).

(** What [writeColumns] writes, in order: a message goes to the output
    directly, a line goes to the column-aligning writer, which holds it back
    until the columns are known. *)
Inductive written : Type :=
  | Direct (text : string)
  | Line (text : string).

Definition messageText (m : client.Message) : string :=
  client.Level m +:+ ": " +:+ client.Text m +:+ "." +:+ String "010"%char EmptyString.

Fixpoint writeColumns_from (c : CommandLine) (previousHeaders : models.Row)
    (i : nat) (results : list client.Result) : list written :=
  match results with
  | [] => []
  | result :: rest =>
      let suppress := suppressHeaders previousHeaders result in
      List.map (fun m => Direct (messageText m)) (client.Messages result)
      ++ (if negb suppress && (0 <? i)%nat then [Line ""] else [])
      ++ List.map Line (formatResults c result tab suppress)
      ++ writeColumns_from c (nextHeaders previousHeaders result) (S i) rest
  end.

Definition writeColumns (c : CommandLine) (response : client.Response)
  : list written :=
  writeColumns_from c zeroRow 0 (client.Results response).

(** [FormatResponse] formats output to the previously chosen format.  The
    JSON text is the marshalled response and is not expanded here; for a
    format that is none of the three, the message written names it. *)
Inductive rendered : Type :=
  | RenderedJSON (pretty : bool) (response : client.Response)
  | RenderedCSV (records : list (list string))
  | RenderedColumns (out : list written)
  | RenderedUnknown (format : string).

Definition FormatResponse (c : CommandLine) (response : client.Response)
  : rendered :=
  if String.eqb (Format c) "json" then RenderedJSON (Pretty c) response
  else if String.eqb (Format c) "csv" then RenderedCSV (writeCSV c response)
  else if String.eqb (Format c) "column" then RenderedColumns (writeColumns c response)
  else RenderedUnknown (Format c).

(** ** Vocabulary of the statements below *)

(** [r] is a suffix of [s]. *)
Definition is_suffix (r s : string) : Prop := exists p, s = p +:+ r.

(** Every character of [s] is a space, tab or newline. *)
Fixpoint allWhitespace (s : string) : bool :=
  match s with
  | EmptyString => true
  | String ch rest => isWhitespace ch && allWhitespace rest
  end.

(** Every character of [s] may occur in an unquoted identifier. *)
Fixpoint allIdentChars (s : string) : bool :=
  match s with
  | EmptyString => true
  | String ch rest => negb (isNotIdentChar ch) && allIdentChars rest
  end.

(** [s] is an unquoted identifier: a letter or [_], then letters, digits
    and [_]. *)
Definition unquotedIdent (s : string) : bool :=
  match s with
  | EmptyString => false
  | String ch _ => isIdentFirstChar ch && allIdentChars s
  end.

(** [s] is empty or starts with a character that ends an unquoted
    identifier. *)
Definition endsIdent (s : string) : bool :=
  match s with
  | EmptyString => true
  | String ch _ => isNotIdentChar ch
  end.

(** The request for one point with the session's precision and write
    consistency. *)
Definition target (c : CommandLine) (db rp point : string) : client.BatchPoints :=
  {| client.Points := [ {| client.Raw := point |} ];
     client.bpDatabase := db;
     client.bpRetentionPolicy := rp;
     client.bpPrecision := client.Precision (ClientConfig c);
     client.bpWriteConsistency := client.WriteConsistency (ClientConfig c) |}.

(** A session with database [d] and retention policy [r]. *)
Definition session_d_r : CommandLine :=
  {| Database := "d"; RetentionPolicy := "r"; Pretty := false; Format := "column";
     Chunked := true; ChunkSize := 0; NodeID := 0; IgnoreSignals := false;
     ClientConfig := {| client.Precision := "ns"; client.WriteConsistency := "all" |} |}.

(** The text [q body q rest] with [q] the double quote. *)
Definition quoted (body rest : string) : string :=
  String dquote (body +:+ String dquote rest).

(** A body of a quoted identifier in which a backslash only ever stands
    right before a double quote, and a double quote only ever right after a
    backslash. *)
Fixpoint escapedBody (s : string) : bool :=
  match s with
  | EmptyString => true
  | String ch rest =>
      if Ascii.eqb ch "\"%char then
        match rest with
        | String ch' rest' => Ascii.eqb ch' dquote && escapedBody rest'
        | EmptyString => false
        end
      else negb (Ascii.eqb ch dquote) && escapedBody rest
  end.

(** [m'] is [m] with the session's database and retention policy filled in
    where [m] has none, and with every field that [m] has left as it is. *)
Definition qualified (c : CommandLine) (m m' : influxql.Measurement) : Prop :=
  (influxql.Database m = "" -> influxql.Database m' = Database c)
  /\ (influxql.Database m <> "" -> influxql.Database m' = influxql.Database m)
  /\ (influxql.RetentionPolicy m = ""
      -> influxql.RetentionPolicy m' = RetentionPolicy c)
  /\ (influxql.RetentionPolicy m <> ""
      -> influxql.RetentionPolicy m' = influxql.RetentionPolicy m)
  /\ influxql.Name m' = influxql.Name m
  /\ influxql.Regex m' = influxql.Regex m.

(** The query that a call of [ExecuteQuery] sent, if it sent one. *)
Definition sent (o : outcome) : option client.Query :=
  match o with
  | ParseFailed _ => None
  | QueryFailed q _ => Some q
  | Responded q _ => Some q
  end.

(** [text] is the text of the identifier [ident] in a statement: an unquoted
    identifier stands for itself, and a quoted one is its body between
    double quotes. *)
Inductive identifierText : string -> string -> Prop :=
  | unquotedText (ident : string) :
      unquotedIdent ident = true -> identifierText ident ident
  | quotedText (body : string) :
      body <> EmptyString -> escapedBody body = true ->
      identifierText (quoted body EmptyString) body.

(** Sample data: the parse of [SELECT * FROM cpu, (SELECT * FROM other.weekly.mem)]
    followed by a statement of another kind, a parser that returns it, and a
    printer that lists the measurements of a query. *)
Definition measurement (db rp name : string) : influxql.Measurement :=
  {| influxql.Database := db; influxql.RetentionPolicy := rp;
     influxql.Name := name; influxql.Regex := None |}.

Definition sampleQuery : influxql.Query :=
  {| influxql.Statements :=
       [ influxql.StSelect
           (influxql.mkSelectStatement
              [ influxql.SrcMeasurement (measurement "" "" "cpu");
                influxql.SrcSubQuery
                  (influxql.mkSelectStatement
                     [ influxql.SrcMeasurement (measurement "other" "weekly" "mem") ]
                     "SELECT *") ]
              "SELECT *");
         influxql.StOther "SHOW DATABASES" ] |}.

Definition sampleParser (q : string) : result influxql.Query := Ok sampleQuery.

Definition samplePrinter (pq : influxql.Query) : string :=
  Join (List.map
          (fun m => influxql.Database m +:+ "." +:+ influxql.RetentionPolicy m
                    +:+ "." +:+ influxql.Name m)
          (List.flat_map influxql.StatementMeasurements (influxql.Statements pq)))
       ",".

(** A transport that fails with an empty message. *)
Definition silentTransport (q : client.Query) : result client.Response := Err "".

(** A transport that fails with a message. *)
Definition refusingTransport (q : client.Query) : result client.Response :=
  Err "connection refused".

(** The series has tags: its tag map is allocated and not empty. *)
Definition hasTags (row : models.Row) : bool :=
  match models.Tags row with
  | Some m => negb (bool_decide (m = ∅))
  | None => false
  end.

(** The fields of the header record of a series in csv format: [name] if the
    series has a name, [tags] if it has tags, then its columns. *)
Definition csvHeader (row : models.Row) : list string :=
  (if nonEmpty (models.Name row) then ["name"] else [])
  ++ (if hasTags row then ["tags"] else [])
  ++ elems (models.Columns row).

(** The fields of the record of the values [v] of a series in csv format:
    the name if the series has one, the tags joined by commas if it has
    tags, then the values. *)
Definition csvRecord (row : models.Row) (v : list value) : list string :=
  (if nonEmpty (models.Name row) then [models.Name row] else [])
  ++ (if hasTags row then [Join (gatherTags (models.Tags row)) ","] else [])
  ++ List.map interfaceToString v.

(** The lines of the values of a series with neither name nor tags put in
    front. *)
Definition plainRows (separator : string) (row : models.Row) : list string :=
  List.map (fun v => Join (List.map interfaceToString v) separator)
           (models.Values row).

(** The lines that head a series in column format: the name line if the
    series has a name, the tags line if it has tags, the column names and
    the dashes under them. *)
Definition columnHeading (separator : string) (row : models.Row) : list string :=
  (if nonEmpty (models.Name row) then ["name: " +:+ models.Name row] else [])
  ++ (if hasTags row
      then ["tags: " +:+ Join (gatherTags (models.Tags row)) ", "] else [])
  ++ [ Join (elems (models.Columns row)) separator;
       Join (List.map (fun columnName => Repeat "-" (String.length columnName))
                      (elems (models.Columns row)))
            separator ].

(** The first series of [result] has the name, tags and columns of [prev]. *)
Definition sameHeader (prev : models.Row) (result : client.Result) : Prop :=
  exists first others,
    client.Series result = first :: others
    /\ models.Name first = models.Name prev
    /\ models.Tags first = models.Tags prev
    /\ models.Columns first = models.Columns prev.

(** No character of [s] is a tab. *)
Fixpoint tabFree (s : string) : bool :=
  match s with
  | EmptyString => true
  | String ch rest => negb (Ascii.eqb ch "009"%char) && tabFree rest
  end.

(** Sample data for rendering. *)
Definition session_csv : CommandLine :=
  {| Database := "d"; RetentionPolicy := ""; Pretty := false; Format := "csv";
     Chunked := true; ChunkSize := 0; NodeID := 0; IgnoreSignals := false;
     ClientConfig := {| client.Precision := "ns"; client.WriteConsistency := "all" |} |}.

Definition cpuRow (values : list (list value)) : models.Row :=
  {| models.Name := "cpu";
     models.Tags := Some (<["host" := "a"]> (<["dc" := "x"]> ∅));
     models.Columns := Some ["time"; "value"];
     models.Values := values |}.

Definition bareRow (values : list (list value)) : models.Row :=
  {| models.Name := ""; models.Tags := None; models.Columns := None;
     models.Values := values |}.

Definition cpuResult (values : list (list value)) : client.Result :=
  {| client.Series := [cpuRow values];
     client.Messages := [ {| client.Level := "warning"; client.Text := "slow" |} ] |}.

Definition bareResult (values : list (list value)) : client.Result :=
  {| client.Series := [bareRow values]; client.Messages := [] |}.

(** ** Vocabulary for further properties of the lexer and of INSERT *)

(** [s] is empty or starts with a character at which the lexer finds no
    identifier and which it does not skip either. *)
Definition noIdentifierAt (s : string) : bool :=
  match s with
  | EmptyString => true
  | String ch _ =>
      negb (isWhitespace ch) && negb (isIdentFirstChar ch)
      && negb (Ascii.eqb ch dquote)
  end.

(** ** Vocabulary for further properties of the rewriting *)

(** A measurement without its database and retention policy. *)
Definition unscoped (m : influxql.Measurement) : influxql.Measurement :=
  {| influxql.Database := "";
     influxql.RetentionPolicy := "";
     influxql.Name := influxql.Name m;
     influxql.Regex := influxql.Regex m |}.

(** A statement with the database and retention policy of every measurement
    of its sources blanked: what is left is everything else the statement
    says. *)
Definition unscopedStatement (stmt : influxql.Statement) : influxql.Statement :=
  match stmt with
  | influxql.StSelect (influxql.mkSelectStatement srcs cl) =>
      influxql.StSelect
        (influxql.mkSelectStatement (influxql.WalkSources unscoped srcs) cl)
  | influxql.StOther text => influxql.StOther text
  end.

(** The measurement names both a database and a retention policy. *)
Definition fullyQualified (m : influxql.Measurement) : Prop :=
  influxql.Database m <> "" /\ influxql.RetentionPolicy m <> "".



(** ** Vocabulary for further properties of the rendering *)

(** The text of one tag. *)
Definition tagText (kv : string * string) : string := kv.1 +:+ "=" +:+ kv.2.

(** The records of a series in csv format when its headers are written:
    the header record, then one record for each row of values. *)
Definition csvRecords (row : models.Row) : list (list string) :=
  csvHeader row :: List.map (csvRecord row) (models.Values row).

(** The records of the rows of values of a series in csv format. *)
Definition csvValueRecords (row : models.Row) : list (list string) :=
  List.map (csvRecord row) (models.Values row).

(** A record that comes back from the line it is joined into: it has a
    field, and no field holds a tab. *)
Definition splittable (fields : list string) : Prop :=
  fields <> [] /\ List.Forall (fun field => tabFree field = true) fields.

(** ** The query language flag *)

(** [QueryLanguage] is a [uint8]; [QueryLanguageInfluxQL] is 0 and
    [QueryLanguageFlux] is 1. *)
Definition QueryLanguage : Type := N.
Definition QueryLanguageInfluxQL : QueryLanguage := 0%N.
Definition QueryLanguageFlux : QueryLanguage := 1%N.

(** The error of [Set]: its message quotes the text that is not a language. *)
Inductive languageError : Type :=
  | NotSupported (s : string).

(** [(l *QueryLanguage) Set(s)]: the value of [*l] after the call and the
    error returned. *)
Definition QueryLanguage_Set (l : QueryLanguage) (s : string)
  : QueryLanguage * option languageError :=
  if String.eqb s "influxql" then (QueryLanguageInfluxQL, None)
  else if String.eqb s "flux" then (QueryLanguageFlux, None)
  else (l, Some (NotSupported s)).

(** [(l *QueryLanguage) String()]. *)
Definition QueryLanguage_String (l : QueryLanguage) : string :=
  if (l =? QueryLanguageInfluxQL)%N then "influxql"
  else if (l =? QueryLanguageFlux)%N then "flux"
  else "QueryLanguage(" +:+ formatInt (Z.of_N l) +:+ ")".

(** ** More of Go's [strings] and [strconv] *)

Definition isASCIIByte (ch : ascii) : bool := (N_of_ascii ch <? 128)%N.

(** Every byte of [s] is below [utf8.RuneSelf]. *)
Fixpoint isASCII (s : string) : bool :=
  match s with
  | EmptyString => true
  | String ch rest => isASCIIByte ch && isASCII rest
  end.

(** The table [asciiSpace]: tab, newline, vertical tab, form feed, carriage
    return and space. *)
Definition asciiSpace (ch : ascii) : bool :=
  Ascii.eqb ch "009"%char || Ascii.eqb ch "010"%char || Ascii.eqb ch "011"%char
  || Ascii.eqb ch "012"%char || Ascii.eqb ch "013"%char || Ascii.eqb ch " "%char.

Definition lowerByte (ch : ascii) : ascii :=
  if ascii_le "A"%char ch && ascii_le ch "Z"%char
  then ascii_of_N (N_of_ascii ch + 32) else ch.

Fixpoint mapBytes (f : ascii -> ascii) (s : string) : string :=
  match s with
  | EmptyString => EmptyString
  | String ch rest => String (f ch) (mapBytes f rest)
  end.

(** The functions below have a path for input that is all ASCII and hand
    any other input to a Unicode-aware function, which goes by the Unicode
    tables.  These are kept as they are called:
    [Map(unicode.ToLower, s)], [TrimFunc(s, unicode.IsSpace)],
    [TrimRightFunc(s, unicode.IsSpace)] and [FieldsFunc(s, unicode.IsSpace)]. *)
Record UnicodePaths := {
  MapToLower : string -> string;
  TrimFuncIsSpace : string -> string;
  TrimRightFuncIsSpace : string -> string;
  FieldsFuncIsSpace : string -> list string
}.

(** The second loop of [strings.TrimSpace], from the end of [s]: [inl t] when
    it stops at a byte that is not a space, [t] being [s] up to that byte,
    and [inr u] when it meets a byte that is not ASCII, [u] being [s] up to
    that byte. *)
Fixpoint trimSpaceEnd (s : string) : string + string :=
  match s with
  | EmptyString => inl EmptyString
  | String ch rest =>
      match trimSpaceEnd rest with
      | inl EmptyString =>
          if negb (isASCIIByte ch) then inr (String ch EmptyString)
          else if asciiSpace ch then inl EmptyString
          else inl (String ch EmptyString)
      | inl t => inl (String ch t)
      | inr u => inr (String ch u)
      end
  end.

(** [strings.TrimSuffix]. *)
Fixpoint TrimSuffix (s suffix : string) : string :=
  match s with
  | EmptyString => EmptyString
  | String ch rest =>
      if String.eqb s suffix then EmptyString
      else String ch (TrimSuffix rest suffix)
  end.

(** [strings.Replace(s, old, "", -1)] for a non-empty [old], which is how the
    shell calls it: [s] without the occurrences of [old], found from left to
    right without overlap.  [skip] counts the bytes of an occurrence that
    are still to be passed over. *)
Fixpoint Remove_from (old : string) (skip : nat) (s : string) : string :=
  match s with
  | EmptyString => EmptyString
  | String ch rest =>
      match skip with
      | S k => Remove_from old k rest
      | O =>
          if strings.HasPrefix s old
          then Remove_from old (String.length old - 1) rest
          else String ch (Remove_from old 0 rest)
      end
  end.

Definition Remove (s old : string) : string := Remove_from old 0 s.

Section Unicode.

Variable U : UnicodePaths.

(** [strings.ToLower]. *)
Definition ToLower (s : string) : string :=
  if isASCII s then mapBytes lowerByte s else MapToLower U s.

Definition TrimSpace_end (s : string) : string :=
  match trimSpaceEnd s with
  | inl t => t
  | inr u => TrimRightFuncIsSpace U u
  end.

(** [strings.TrimSpace]: the first loop, from the start of [s]. *)
Fixpoint TrimSpace (s : string) : string :=
  match s with
  | EmptyString => EmptyString
  | String ch rest =>
      if negb (isASCIIByte ch) then TrimFuncIsSpace U s
      else if asciiSpace ch then TrimSpace rest
      else TrimSpace_end s
  end.

(** [strings.Fields]. *)
Definition Fields (s : string) : list string :=
  if isASCII s
  then strings.FieldsFunc (fun (_ : unit) ch => (asciiSpace ch, tt)) tt s
  else FieldsFuncIsSpace U s.

End Unicode.

(** [strconv]: the two errors of the number parsers. *)
Inductive NumError : Type := ErrSyntax | ErrRange.

(** The value of a run of decimal digits, [None] if a byte is not a digit. *)
Fixpoint digitsValue (acc : Z) (s : string) : option Z :=
  match s with
  | EmptyString => Some acc
  | String ch rest =>
      if isDigit ch
      then digitsValue (acc * 10 + (Z.of_N (N_of_ascii ch) - 48)) rest
      else None
  end.

(** [strconv.ParseInt(s, 10, bitSize)]: an optional sign, then at least one
    digit and nothing but digits; the value has to fit [bitSize] bits. *)
Definition ParseInt (s : string) (bitSize : Z) : Z + NumError :=
  match s with
  | EmptyString => inr ErrSyntax
  | String ch rest =>
      let neg := Ascii.eqb ch "-"%char in
      let digits :=
        if Ascii.eqb ch "+"%char || Ascii.eqb ch "-"%char then rest else s in
      match digits with
      | EmptyString => inr ErrSyntax
      | String _ _ =>
          match digitsValue 0 digits with
          | None => inr ErrSyntax
          | Some un =>
              let n := if neg then (- un)%Z else un in
              if (- 2 ^ (bitSize - 1) <=? n)%Z && (n <? 2 ^ (bitSize - 1))%Z
              then inl n else inr ErrRange
          end
      end
  end.

(** ** The handlers of the meta-commands that only touch the session *)

(** Assignments to fields of the session. *)
Definition setDatabase (c : CommandLine) (db : string) : CommandLine :=
  {| Database := db; RetentionPolicy := RetentionPolicy c; Pretty := Pretty c;
     Format := Format c; Chunked := Chunked c; ChunkSize := ChunkSize c;
     NodeID := NodeID c; IgnoreSignals := IgnoreSignals c;
     ClientConfig := ClientConfig c |}.

Definition setRetentionPolicy (c : CommandLine) (rp : string) : CommandLine :=
  {| Database := Database c; RetentionPolicy := rp; Pretty := Pretty c;
     Format := Format c; Chunked := Chunked c; ChunkSize := ChunkSize c;
     NodeID := NodeID c; IgnoreSignals := IgnoreSignals c;
     ClientConfig := ClientConfig c |}.

Definition setPretty (c : CommandLine) (b : bool) : CommandLine :=
  {| Database := Database c; RetentionPolicy := RetentionPolicy c; Pretty := b;
     Format := Format c; Chunked := Chunked c; ChunkSize := ChunkSize c;
     NodeID := NodeID c; IgnoreSignals := IgnoreSignals c;
     ClientConfig := ClientConfig c |}.

Definition setFormat (c : CommandLine) (f : string) : CommandLine :=
  {| Database := Database c; RetentionPolicy := RetentionPolicy c;
     Pretty := Pretty c; Format := f; Chunked := Chunked c;
     ChunkSize := ChunkSize c; NodeID := NodeID c;
     IgnoreSignals := IgnoreSignals c; ClientConfig := ClientConfig c |}.

Definition setChunked (c : CommandLine) (b : bool) : CommandLine :=
  {| Database := Database c; RetentionPolicy := RetentionPolicy c;
     Pretty := Pretty c; Format := Format c; Chunked := b;
     ChunkSize := ChunkSize c; NodeID := NodeID c;
     IgnoreSignals := IgnoreSignals c; ClientConfig := ClientConfig c |}.

Definition setChunkSize (c : CommandLine) (n : Z) : CommandLine :=
  {| Database := Database c; RetentionPolicy := RetentionPolicy c;
     Pretty := Pretty c; Format := Format c; Chunked := Chunked c;
     ChunkSize := n; NodeID := NodeID c;
     IgnoreSignals := IgnoreSignals c; ClientConfig := ClientConfig c |}.

Definition setNodeID (c : CommandLine) (id : Z) : CommandLine :=
  {| Database := Database c; RetentionPolicy := RetentionPolicy c;
     Pretty := Pretty c; Format := Format c; Chunked := Chunked c;
     ChunkSize := ChunkSize c; NodeID := id;
     IgnoreSignals := IgnoreSignals c; ClientConfig := ClientConfig c |}.

Definition setPrecision (c : CommandLine) (p : string) : CommandLine :=
  {| Database := Database c; RetentionPolicy := RetentionPolicy c;
     Pretty := Pretty c; Format := Format c; Chunked := Chunked c;
     ChunkSize := ChunkSize c; NodeID := NodeID c;
     IgnoreSignals := IgnoreSignals c;
     ClientConfig :=
       {| client.Precision := p;
          client.WriteConsistency := client.WriteConsistency (ClientConfig c) |} |}.

(** What a handler prints, by the print statement and its arguments. *)
Inductive said : Type :=
  | UnknownFormat (cmd : string)
  | UnknownPrecision (cmd : string)
  | ChunkSizeSet (n : Z)
  | ChunkSizeUnparsed (cmd : string)
  | NodeArguments
  | NodeUnparsed (arg : string)
  | DatabaseCleared
  | RetentionPolicyCleared
  | ClearInvalid (v : string)
  | ClearUsage
  | ChunkedEnabled
  | ChunkedDisabled
  | PrettyEnabled
  | PrettyDisabled.

Definition oneOf (s : string) (l : list string) : bool :=
  existsb (String.eqb s) l.

Section Handlers.

Variable U : UnicodePaths.
(** The size of [int] in bits, 32 or 64. *)
Variable intSize : Z.

(** The conversion [int(n)] of an [int64]. *)
Definition toInt (n : Z) : Z :=
  let m := (n mod 2 ^ intSize)%Z in
  if (m <? 2 ^ (intSize - 1))%Z then m else (m - 2 ^ intSize)%Z.

(** [strconv.Atoi]. *)
Definition Atoi (s : string) : Z + NumError := ParseInt s intSize.

(** [SetFormat] sets output format. *)
Definition SetFormat (c : CommandLine) (cmd : string) : CommandLine * list said :=
  let cmd := ToLower U cmd in
  let cmd := TrimSpace U (Remove cmd "format") in
  if oneOf cmd ["json"; "csv"; "column"] then (setFormat c cmd, [])
  else (c, [UnknownFormat cmd]).

(** [SetPrecision] sets client precision.  The call that passes the
    precision on to the client is outside the session. *)
Definition SetPrecision (c : CommandLine) (cmd : string) : CommandLine * list said :=
  let cmd := ToLower U cmd in
  let cmd := TrimSpace U (Remove cmd "precision") in
  if oneOf cmd ["h"; "m"; "s"; "ms"; "u"; "ns"] then (setPrecision c cmd, [])
  else if String.eqb cmd "rfc3339" then (setPrecision c "", [])
  else (c, [UnknownPrecision cmd]).

(** [SetChunkSize] sets the chunk size; 0 sets it back to the default. *)
Definition SetChunkSize (c : CommandLine) (cmd : string) : CommandLine * list said :=
  let cmd := ToLower U cmd in
  let cmd := Join (Fields U cmd) " " in
  let cmd := strings.TrimPrefix cmd "chunk size " in
  let cmd := strings.TrimPrefix cmd "chunk " in
  match ParseInt cmd 64 with
  | inl n =>
      let size := toInt n in
      let size := if (size <=? 0)%Z then 0%Z else size in
      (setChunkSize c size, [ChunkSizeSet size])
  | inr _ => (c, [ChunkSizeUnparsed cmd])
  end.

Definition node (c : CommandLine) (cmd : string) : CommandLine * list said :=
  let args := Split (TrimSuffix (TrimSpace U cmd) ";") " "%char in
  match args with
  | [_; arg] =>
      if String.eqb arg "clear" then (setNodeID c 0, [])
      else
        match Atoi arg with
        | inl id => (setNodeID c id, [])
        | inr _ => (c, [NodeUnparsed arg])
        end
  | _ => (c, [NodeArguments])
  end.

Definition clear (c : CommandLine) (cmd : string) : CommandLine * list said :=
  let args := Split (TrimSuffix (TrimSpace U cmd) ";") " "%char in
  let v := ToLower U (Join (List.tl args) " ") in
  if oneOf v ["database"; "db"] then (setDatabase c "", [DatabaseCleared])
  else if oneOf v ["retention policy"; "rp"]
  then (setRetentionPolicy c "", [RetentionPolicyCleared])
  else
    ((c, (if (1 <? length args)%nat then [ClearInvalid v] else []) ++ [ClearUsage])).

(** The methods that [ParseCommand] hands a command to and that reach
    outside the session: the line reader, the client, the quit channel. *)
Inductive method : Type :=
  | Quit | Gopher | Connect | SetAuth | Help | History | SetWriteConsistency
  | Settings | Use | Insert | Query.

(** What [ParseCommand] does with a line: nothing, returning
    [ErrBlankCommand]; a change of the session and some printing, returning
    nil; or the call of a method with the line. *)
Inductive dispatched : Type :=
  | Blank
  | Handled (c' : CommandLine) (out : list said)
  | Call (m : method) (cmd : string).

(** The switch of [ParseCommand] on the first token. *)
Definition route (token : string) (c : CommandLine) (cmd : string) : dispatched :=
  if oneOf token ["exit"; "quit"] then Call Quit cmd
  else if String.eqb token "gopher" then Call Gopher cmd
  else if String.eqb token "connect" then Call Connect cmd
  else if String.eqb token "auth" then Call SetAuth cmd
  else if String.eqb token "help" then Call Help cmd
  else if String.eqb token "history" then Call History cmd
  else if String.eqb token "format"
  then let '(c', out) := SetFormat c cmd in Handled c' out
  else if String.eqb token "precision"
  then let '(c', out) := SetPrecision c cmd in Handled c' out
  else if String.eqb token "consistency" then Call SetWriteConsistency cmd
  else if String.eqb token "settings" then Call Settings cmd
  else if String.eqb token "chunked"
  then Handled (setChunked c (negb (Chunked c)))
               [if negb (Chunked c) then ChunkedEnabled else ChunkedDisabled]
  else if String.eqb token "chunk"
  then let '(c', out) := SetChunkSize c cmd in Handled c' out
  else if String.eqb token "pretty"
  then Handled (setPretty c (negb (Pretty c)))
               [if negb (Pretty c) then PrettyEnabled else PrettyDisabled]
  else if String.eqb token "use" then Call Use cmd
  else if String.eqb token "node"
  then let '(c', out) := node c cmd in Handled c' out
  else if String.eqb token "insert" then Call Insert cmd
  else if String.eqb token "clear"
  then let '(c', out) := clear c cmd in Handled c' out
  else Call Query cmd.

(** [ParseCommand] parses an instruction and calls the related method or
    executes the command as a query against InfluxDB. *)
Definition ParseCommand (c : CommandLine) (cmd : string) : dispatched :=
  let lcmd := TrimSpace U (ToLower U cmd) in
  let tokens := Fields U lcmd in
  match tokens with
  | token :: _ => route token c cmd
  | [] => Blank
  end.

(** The test of [mainLoop] on a line it has passed to [ParseCommand]: the
    line is appended to the history, sanitized, unless [ParseCommand]
    returned [ErrBlankCommand] or the line, trimmed, starts with [auth]. *)
Definition recorded (Sanitize : string -> string) (c : CommandLine) (l : string)
  : option string :=
  let blank := match ParseCommand c l with Blank => true | _ => false end in
  if negb blank && negb (strings.HasPrefix (TrimSpace U l) "auth")
  then Some (Sanitize l) else None.

End Handlers.

(** ** Vocabulary for the properties of the dispatcher and the handlers *)

(** Every byte of [s] is an ASCII space. *)
Fixpoint allSpace (s : string) : bool :=
  match s with
  | EmptyString => true
  | String ch rest => asciiSpace ch && allSpace rest
  end.

(** Every byte of [s] is ASCII and not a space. *)
Fixpoint wordBytes (s : string) : bool :=
  match s with
  | EmptyString => true
  | String ch rest => isASCIIByte ch && negb (asciiSpace ch) && wordBytes rest
  end.

(** [s] is a word: not empty, all ASCII, no space. *)
Definition isWord (s : string) : bool :=
  match s with
  | EmptyString => false
  | String _ _ => wordBytes s
  end.

(** [s] is empty or starts with an ASCII space. *)
Definition endsWord (s : string) : bool :=
  match s with
  | EmptyString => true
  | String ch _ => asciiSpace ch
  end.




(** Stand-ins for the Unicode-aware functions and for [influxql.Sanitize],
    for examples on ASCII input, which never reach the former. *)
Definition noUnicode : UnicodePaths :=
  {| MapToLower := fun s => s;
     TrimFuncIsSpace := fun s => s;
     TrimRightFuncIsSpace := fun s => s;
     FieldsFuncIsSpace := fun s => [s] |}.

Definition noSanitize (l : string) : string := l.

(** The first words that [ParseCommand] knows. *)
Definition metaCommands : list string :=
  [ "exit"; "quit"; "gopher"; "connect"; "auth"; "help"; "history"; "format";
    "precision"; "consistency"; "settings"; "chunked"; "chunk"; "pretty";
    "use"; "node"; "insert"; "clear" ].




(** ** The text given for execution *)

(** The error that stops the loop of [Run] over the lines of the text to
    execute: [ErrBlankCommand], or the error of a method. *)
Inductive runError : Type :=
  | ErrBlankCommand
  | MethodError (msg : string).

Section RunExecute.

Variable U : UnicodePaths.
Variable intSize : Z.
(** The methods outside the session: the session after the call and the
    message of the error returned, if any. *)
Variable perform : CommandLine -> method -> string -> CommandLine * option string.

(** The loop of [Run] over the lines of the text to execute, for the query
    language InfluxQL: every line goes through [ParseCommand], and the first
    error ends the loop. *)
Fixpoint Run_execute_lines (c : CommandLine) (lines : list string)
  : CommandLine * option runError :=
  match lines with
  | [] => (c, None)
  | line :: rest =>
      match ParseCommand U intSize c line with
      | Blank => (c, Some ErrBlankCommand)
      | Handled c' _ => Run_execute_lines c' rest
      | Call m cmd =>
          let '(c', err) := perform c m cmd in
          match err with
          | Some msg => (c', Some (MethodError msg))
          | None => Run_execute_lines c' rest
          end
      end
  end.

Definition Run_execute (c : CommandLine) (text : string)
  : CommandLine * option runError :=
  Run_execute_lines c (Split text "010"%char).

End RunExecute.

(** Methods that never fail and leave the session as it is. *)
Definition quietMethods (c : CommandLine) (m : method) (cmd : string)
  : CommandLine * option string := (c, None).

Definition memRow (values : list (list value)) : models.Row :=
  {| models.Name := "mem"; models.Tags := None;
     models.Columns := Some ["time"; "free"];
     models.Values := values |}.

(** A result of the series cpu and mem, as a statement that selects from
    both measurements gives, followed by a result of the one series
    [next]. *)
Definition cpuMemThen (next : models.Row) : client.Response :=
  {| client.Results :=
       [ {| client.Series := [cpuRow [[VInt 1; VInt 10]]; memRow [[VInt 1; VInt 20]]];
            client.Messages := [] |};
         {| client.Series := [next]; client.Messages := [] |} ] |}.

(** * Theorems *)

Example lex_unquoted :
  parseNextIdentifier "  insert cpu value=1"%string = ("insert", " cpu value=1")%string.
Proof. reflexivity. Qed.

(** A quoted identifier whose body holds an escaped quote. *)
Example lex_quoted_escape :
  parseNextIdentifier (String dquote ("a\" +:+ String dquote ("b" +:+ String dquote " rest")))%string
  = ("a\" +:+ String dquote "b", " rest")%string.
Proof. reflexivity. Qed.

(** ** Suffixes *)

Lemma is_suffix_refl s : is_suffix s s.
Proof. by exists EmptyString. Qed.

Lemma is_suffix_cons ch r s : is_suffix r s -> is_suffix r (String ch s).
Proof. intros [p ->]. by exists (String ch p). Qed.

Lemma drop_is_suffix n s : is_suffix (strings.drop n s) s.
Proof.
  revert s; induction n as [|n IH]; intros s; simpl.
  - apply is_suffix_refl.
  - destruct s as [|ch s]; [apply is_suffix_refl|].
    apply is_suffix_cons, IH.
Qed.

Lemma TrimPrefix_is_suffix s p : is_suffix (strings.TrimPrefix s p) s.
Proof.
  unfold strings.TrimPrefix.
  destruct (strings.HasPrefix s p); [apply drop_is_suffix | apply is_suffix_refl].
Qed.

Lemma parseUnquotedIdentifier_suffix stmt :
  is_suffix (parseUnquotedIdentifier stmt).2 stmt.
Proof.
  unfold parseUnquotedIdentifier.
  destruct (strings.FieldsFunc _ _ _); simpl;
    [apply is_suffix_refl | apply TrimPrefix_is_suffix].
Qed.

Lemma parseDoubleQuotedIdentifier_suffix stmt :
  is_suffix (parseDoubleQuotedIdentifier stmt).2 stmt.
Proof.
  unfold parseDoubleQuotedIdentifier.
  destruct (strings.FieldsFunc _ _ _); simpl;
    [apply is_suffix_refl | apply TrimPrefix_is_suffix].
Qed.

Example insert_into_db_rp :
  parseInsert session_d_r "insert into mydb.myrp cpu value=1"
  = Ok {| client.Points := [ {| client.Raw := "cpu value=1" |} ];
          client.bpDatabase := "mydb"; client.bpRetentionPolicy := "myrp";
          client.bpPrecision := "ns"; client.bpWriteConsistency := "all" |}.
Proof. reflexivity. Qed.

Example insert_misspelt :
  parseInsert session_d_r "insrt x" = Err "found insrt, expected INSERT".
Proof. reflexivity. Qed.

(** ** The lexer *)

(** C9: the remainder that the lexer returns is a suffix of its input, for
    every input: through the unquoted path, through the double-quoted path
    (terminated or not), and when no identifier is found. *)
Theorem parseNextIdentifier_remainder_is_suffix :
  forall stmt : string,
    is_suffix (parseNextIdentifier stmt).2 stmt
    /\ is_suffix (parseUnquotedIdentifier stmt).2 stmt
    /\ is_suffix (parseDoubleQuotedIdentifier stmt).2 stmt.
Proof.
  intros stmt; split;
    [| split; [apply parseUnquotedIdentifier_suffix
              | apply parseDoubleQuotedIdentifier_suffix]].
  induction stmt as [|ch rest IH]; [apply is_suffix_refl|].
  cbn [parseNextIdentifier].
  destruct (isWhitespace ch).
  { apply is_suffix_cons, IH. }
  destruct (isIdentFirstChar ch); [apply parseUnquotedIdentifier_suffix|].
  destruct (Ascii.eqb ch dquote); [apply parseDoubleQuotedIdentifier_suffix|].
  apply is_suffix_refl.
Qed.

(** C8: leading whitespace does not change what the lexer returns: on
    whitespace followed by a text it returns the very pair it returns on the
    text alone. *)
Theorem parseNextIdentifier_skips_whitespace :
  forall ws text : string,
    allWhitespace ws = true ->
    parseNextIdentifier (ws +:+ text) = parseNextIdentifier text.
Proof.
  induction ws as [|ch ws IH]; intros text Hws; [reflexivity|].
  cbn [allWhitespace] in Hws. apply andb_true_iff in Hws as [Hch Hws].
  change (String ch ws +:+ text) with (String ch (ws +:+ text)).
  cbn [parseNextIdentifier]. rewrite Hch. by apply IH.
Qed.

Lemma parseNextIdentifier_skips_whitespace_witness :
  allWhitespace (String " " (String "009" (String "010" EmptyString)))%char = true
  /\ parseNextIdentifier (String " " (String "009" (String "010" EmptyString)) +:+ "cpu value=1")%char
     = parseNextIdentifier "cpu value=1".
Proof.
  split; [reflexivity|].
  apply (parseNextIdentifier_skips_whitespace
           (String " " (String "009" (String "010" EmptyString)))%char "cpu value=1").
  reflexivity.
Defined.

(** ** Prefixes and fields *)

Lemma append_cons ch (a b : string) : String ch a +:+ b = String ch (a +:+ b).
Proof. reflexivity. Qed.

Lemma append_nil_l (b : string) : EmptyString +:+ b = b.
Proof. reflexivity. Qed.

Lemma append_nil_r (a : string) : a +:+ EmptyString = a.
Proof. induction a as [|ch a IH]; [done|]. by rewrite append_cons, IH. Qed.

Lemma append_assoc' (a b c : string) : (a +:+ b) +:+ c = a +:+ (b +:+ c).
Proof.
  induction a as [|ch a IH]; [done|]. by rewrite !append_cons, IH.
Qed.

Lemma HasPrefix_app p r : strings.HasPrefix (p +:+ r) p = true.
Proof.
  induction p as [|ch p IH]; [reflexivity|].
  rewrite append_cons. cbn [strings.HasPrefix].
  rewrite Ascii.eqb_refl. exact IH.
Qed.

Lemma drop_app p r : strings.drop (String.length p) (p +:+ r) = r.
Proof.
  induction p as [|ch p IH]; [reflexivity|].
  rewrite append_cons. cbn [String.length strings.drop]. exact IH.
Qed.

Lemma TrimPrefix_app p r : strings.TrimPrefix (p +:+ r) p = r.
Proof. unfold strings.TrimPrefix. by rewrite HasPrefix_app, drop_app. Qed.

Section unquoted.

Let notIdent := fun (_ : unit) ch => (isNotIdentChar ch, tt).

Lemma FieldsFunc_from_ident_open ident fld rest :
  allIdentChars ident = true ->
  strings.FieldsFunc_from notIdent tt (Some fld) (ident +:+ rest)
  = strings.FieldsFunc_from notIdent tt (Some (fld +:+ ident)) rest.
Proof.
  revert fld; induction ident as [|ch ident IH]; intros fld Hid.
  - by rewrite append_nil_l, append_nil_r.
  - cbn [allIdentChars] in Hid. apply andb_true_iff in Hid as [Hch Hid].
    apply negb_true_iff in Hch. rewrite append_cons. simpl.
    rewrite Hch, IH by done.
    by rewrite append_assoc', append_cons, append_nil_l.
Qed.

Lemma FieldsFunc_ident ident rest :
  ident <> EmptyString ->
  allIdentChars ident = true ->
  strings.FieldsFunc notIdent tt (ident +:+ rest)
  = strings.FieldsFunc_from notIdent tt (Some ident) rest.
Proof.
  intros Hne Hid. destruct ident as [|ch ident]; [done|].
  cbn [allIdentChars] in Hid. apply andb_true_iff in Hid as [Hch Hid].
  apply negb_true_iff in Hch.
  unfold strings.FieldsFunc. rewrite append_cons. simpl. rewrite Hch.
  rewrite FieldsFunc_from_ident_open by done.
  by rewrite append_cons, append_nil_l.
Qed.

Lemma parseUnquotedIdentifier_app ident rest :
  ident <> EmptyString ->
  allIdentChars ident = true ->
  endsIdent rest = true ->
  parseUnquotedIdentifier (ident +:+ rest) = (ident, rest).
Proof.
  intros Hne Hid Hend. unfold parseUnquotedIdentifier.
  fold notIdent. rewrite FieldsFunc_ident by done.
  destruct rest as [|ch rest]; simpl.
  - by rewrite TrimPrefix_app.
  - simpl in Hend. rewrite Hend. by rewrite TrimPrefix_app.
Qed.

End unquoted.

Lemma isIdentFirstChar_not_whitespace ch :
  isIdentFirstChar ch = true -> isWhitespace ch = false.
Proof. by destruct ch as [[] [] [] [] [] [] [] []]. Qed.

(** The lexer on an unquoted identifier followed by a text that ends it. *)
Lemma parseNextIdentifier_unquoted ident rest :
  unquotedIdent ident = true ->
  endsIdent rest = true ->
  parseNextIdentifier (ident +:+ rest) = (ident, rest).
Proof.
  intros Hid Hend. destruct ident as [|ch ident]; [done|].
  cbn [unquotedIdent] in Hid. apply andb_true_iff in Hid as [Hfirst Hall].
  change (String ch ident +:+ rest) with (String ch (ident +:+ rest)).
  cbn [parseNextIdentifier].
  rewrite (isIdentFirstChar_not_whitespace _ Hfirst), Hfirst.
  by apply (parseUnquotedIdentifier_app (String ch ident)).
Qed.

(** ** Quoted identifiers *)

Lemma quoteSeparator_plain ch st :
  Ascii.eqb ch "\"%char = false -> Ascii.eqb ch dquote = false ->
  quoteSeparator st ch = (false, st).
Proof. intros H1 H2. unfold quoteSeparator. by rewrite H1, H2. Qed.

Lemma FieldsFunc_from_escapedBody_open n :
  forall body fld rest,
    String.length body <= n ->
    escapedBody body = true ->
    strings.FieldsFunc_from quoteSeparator false (Some fld) (body +:+ rest)
    = strings.FieldsFunc_from quoteSeparator false (Some (fld +:+ body)) rest.
Proof.
  induction n as [|n IH]; intros body fld rest Hlen Hb.
  { destruct body; [|simpl in Hlen; lia]. by rewrite append_nil_l, append_nil_r. }
  destruct body as [|ch body]; [by rewrite append_nil_l, append_nil_r|].
  cbn [escapedBody] in Hb. simpl in Hlen.
  destruct (Ascii.eqb ch "\"%char) eqn:Hbs.
  - apply Ascii.eqb_eq in Hbs as ->.
    destruct body as [|ch' body]; [done|].
    apply andb_true_iff in Hb as [Hq Hb]. apply Ascii.eqb_eq in Hq as ->.
    rewrite !append_cons. cbn -[String.append].
    simpl in Hlen. rewrite IH by (done || lia).
    by rewrite !append_assoc', !append_cons, !append_nil_l.
  - apply andb_true_iff in Hb as [Hq Hb]. apply negb_true_iff in Hq.
    rewrite append_cons. cbn [strings.FieldsFunc_from].
    rewrite (quoteSeparator_plain _ _ Hbs Hq).
    rewrite IH by (done || lia).
    by rewrite append_assoc', append_cons, append_nil_l.
Qed.

Lemma FieldsFunc_from_escapedBody body rest :
  body <> EmptyString ->
  escapedBody body = true ->
  strings.FieldsFunc_from quoteSeparator false None (body +:+ rest)
  = strings.FieldsFunc_from quoteSeparator false (Some body) rest.
Proof.
  intros Hne Hb. destruct body as [|ch body]; [done|].
  cbn [escapedBody] in Hb.
  destruct (Ascii.eqb ch "\"%char) eqn:Hbs.
  - apply Ascii.eqb_eq in Hbs as ->.
    destruct body as [|ch' body]; [done|].
    apply andb_true_iff in Hb as [Hq Hb]. apply Ascii.eqb_eq in Hq as ->.
    rewrite !append_cons. cbn -[String.append].
    rewrite (FieldsFunc_from_escapedBody_open (String.length body)) by done.
    by rewrite !append_cons, !append_nil_l.
  - apply andb_true_iff in Hb as [Hq Hb]. apply negb_true_iff in Hq.
    rewrite append_cons. cbn [strings.FieldsFunc_from].
    rewrite (quoteSeparator_plain _ _ Hbs Hq).
    rewrite (FieldsFunc_from_escapedBody_open (String.length body)) by done.
    by rewrite append_cons, append_nil_l.
Qed.

(** On a quoted identifier whose non-empty body uses the backslash only to
    escape a double quote, the lexer returns the body without the surrounding
    quotes, escapes kept, and the remainder starts right after the closing
    quote. *)
Lemma parseNextIdentifier_quoted body rest :
  body <> EmptyString ->
  escapedBody body = true ->
  parseNextIdentifier (quoted body rest) = (body, rest).
Proof.
  intros Hne Hb. unfold quoted. cbn [parseNextIdentifier].
  change (isWhitespace dquote) with false.
  change (isIdentFirstChar dquote) with false.
  change (Ascii.eqb dquote dquote) with true. cbv iota.
  unfold parseDoubleQuotedIdentifier, strings.FieldsFunc.
  cbn [strings.FieldsFunc_from].
  change (quoteSeparator false dquote) with (true, false). cbv iota beta.
  rewrite FieldsFunc_from_escapedBody by done.
  cbn [strings.FieldsFunc_from].
  change (quoteSeparator false dquote) with (true, false). cbv iota beta.
  f_equal.
  replace (String dquote (body +:+ String dquote rest))
    with (String dquote (body +:+ String dquote EmptyString) +:+ rest).
  - apply TrimPrefix_app.
  - by rewrite append_cons, append_assoc', append_cons, append_nil_l.
Qed.

Example parseNextIdentifier_quoted_escape :
  parseNextIdentifier (quoted ("a\" +:+ String dquote "b") " rest")
  = ("a\" +:+ String dquote "b", " rest").
Proof. by apply parseNextIdentifier_quoted. Qed.

(** C5 at two inputs, [q] being the double quote.  In [q a \ b q _ x] the
    backslash leaves the escape flag set past the [b] that follows it, and
    in [q a \ \ q _ x] the second backslash sets it again: either way the
    quote that should close the identifier is taken for an escaped one.  No
    other quote follows, so the scan runs to the end of the input: the
    identifier returned holds the quote and the text after it, and the
    remainder is the whole input. *)
Theorem parseNextIdentifier_escape_outlives_next_character :
  parseNextIdentifier (quoted "a\b" " x")
  = ("a\b" +:+ String dquote " x", quoted "a\b" " x")
  /\ parseNextIdentifier (quoted "a\\" " x")
     = ("a\\" +:+ String dquote " x", quoted "a\\" " x").
Proof. split; reflexivity. Qed.

(** ** INSERT scoping *)

(** Every successful [parseInsert] carries the session's precision and write
    consistency, whichever path built the request. *)
Lemma parseInsert_carries_settings c stmt bp :
  parseInsert c stmt = Ok bp ->
  client.bpPrecision bp = client.Precision (ClientConfig c)
  /\ client.bpWriteConsistency bp = client.WriteConsistency (ClientConfig c).
Proof.
  unfold parseInsert, parseInto.
  repeat match goal with
         | |- context [parseNextIdentifier ?s] => destruct (parseNextIdentifier s)
         | |- context [if ?b then _ else _] => destruct b
         end; intros [= <-]; done.
Qed.

Lemma parseInsert_into_lexed c text ident pt :
  parseNextIdentifier (text +:+ " " +:+ pt) = (ident, " " +:+ pt) ->
  parseInsert c ("INSERT INTO " +:+ text +:+ " " +:+ pt)
  = Ok (target c (Database c) ident pt).
Proof.
  intros Hlex.
  set (X := text +:+ " " +:+ pt) in *.
  change ("INSERT INTO " +:+ X) with ("INSERT" +:+ (" INTO " +:+ X)).
  unfold parseInsert.
  rewrite (parseNextIdentifier_unquoted "INSERT" (" INTO " +:+ X)) by reflexivity.
  change (EqualFold "INSERT" "insert") with true. cbn [negb].
  change (parseNextIdentifier (" INTO " +:+ X))
    with (parseNextIdentifier ("INTO" +:+ (" " +:+ X))).
  rewrite (parseNextIdentifier_unquoted "INTO" (" " +:+ X)) by reflexivity.
  change (EqualFold "INTO" "into") with true. cbv iota.
  unfold parseInto.
  change (parseNextIdentifier (" " +:+ X)) with (parseNextIdentifier X).
  rewrite Hlex. reflexivity.
Qed.

(** On [INSERT INTO <ident> <point-text>] with an identifier that is
    unquoted, or quoted with a non-empty body in which a backslash only
    stands before a double quote, the lexer stops at the space after the
    identifier: the identifier is the retention policy of the target, the
    database is the session's, and the point text follows the space. *)
Lemma parseInsert_into_identifier_text :
  forall (c : CommandLine) (text ident pt : string),
    identifierText text ident ->
    parseInsert c ("INSERT INTO " +:+ text +:+ " " +:+ pt)
    = Ok (target c (Database c) ident pt).
Proof.
  intros c text ident pt Htext. apply parseInsert_into_lexed.
  destruct Htext as [ident Hid | body Hne Hbody].
  - by apply parseNextIdentifier_unquoted.
  - replace (quoted body EmptyString +:+ " " +:+ pt) with (quoted body (" " +:+ pt)).
    + by apply parseNextIdentifier_quoted.
    + unfold quoted.
      by rewrite (append_cons dquote), append_assoc', (append_cons dquote), append_nil_l.
Qed.

(** C1, as the code has it: in every statement whose first identifier folds
    to INSERT and whose next identifier folds to INTO, if the identifier
    that the lexer reads next is followed by a single space (and so not by
    a dot), that identifier is the retention policy of the target and the
    database is the session's current database; the point text is what
    follows the single separating space.  Identifiers and remainders are
    those that [parseNextIdentifier] returns. *)
Theorem parseInsert_into_single_identifier :
  forall (c : CommandLine) (stmt i point i' r ident pt : string),
    parseNextIdentifier stmt = (i, point) ->
    EqualFold i "insert" = true ->
    parseNextIdentifier point = (i', r) ->
    EqualFold i' "into" = true ->
    parseNextIdentifier r = (ident, " " +:+ pt) ->
    parseInsert c stmt = Ok (target c (Database c) ident pt).
Proof.
  intros c stmt i point i' r ident pt Hfirst Hinsert Hnext Hinto Hident.
  unfold parseInsert. rewrite Hfirst, Hinsert. cbn [negb].
  rewrite Hnext, Hinto. unfold parseInto. rewrite Hident.
  reflexivity.
Qed.

Lemma parseInsert_into_single_identifier_witness :
  parseInsert session_d_r "INSERT INTO mydb cpu value=1"
  = Ok (target session_d_r "d" "mydb" "cpu value=1")
  /\ parseInsert session_d_r
       ("insert into " +:+ quoted "my rp" EmptyString +:+ " " +:+ "cpu value=1")
     = Ok (target session_d_r "d" "my rp" "cpu value=1").
Proof.
  split.
  - apply (parseInsert_into_single_identifier session_d_r
             "INSERT INTO mydb cpu value=1"
             "INSERT" " INTO mydb cpu value=1"
             "INTO" " mydb cpu value=1"
             "mydb" "cpu value=1"); reflexivity.
  - apply (parseInsert_into_single_identifier session_d_r
             ("insert into " +:+ quoted "my rp" EmptyString +:+ " " +:+ "cpu value=1")
             "insert" (" into " +:+ quoted "my rp" EmptyString +:+ " " +:+ "cpu value=1")
             "into" (" " +:+ quoted "my rp" EmptyString +:+ " " +:+ "cpu value=1")
             "my rp" "cpu value=1"); reflexivity.
Defined.

(** Where the lexer does not stop at the closing quote, the statement has
    no such identifier: with a backslash before a plain character in the
    quoted text, the target keeps the session's retention policy and the
    point text is the whole clause. *)
Example parseInsert_into_stray_backslash :
  parseInsert session_d_r
    ("INSERT INTO " +:+ quoted "a\b" EmptyString +:+ " " +:+ "cpu value=1")
  = Ok (target session_d_r "d" "r"
          (quoted "a\b" EmptyString +:+ " " +:+ "cpu value=1")).
Proof. reflexivity. Qed.

(** C1 as stated fails: the identifier does not become the database. *)
Lemma parseInsert_into_single_identifier_not_database :
  ~ (exists bp,
        parseInsert session_d_r "INSERT INTO mydb cpu value=1" = Ok bp
        /\ client.bpDatabase bp = "mydb"
        /\ client.bpRetentionPolicy bp = RetentionPolicy session_d_r).
Proof. intros (bp & [= <-] & Hdb & _). discriminate Hdb. Qed.

(** C6, as the code has it: when the first identifier folds to INSERT and
    the next one does not fold to INTO, [parseInsert] succeeds; database and
    retention policy are the session's, precision and write consistency are
    the session's, and the point text is all that follows the first
    identifier, the separating whitespace included. *)
Theorem parseInsert_without_into :
  forall (c : CommandLine) (stmt : string),
    EqualFold (parseNextIdentifier stmt).1 "insert" = true ->
    EqualFold (parseNextIdentifier (parseNextIdentifier stmt).2).1 "into" = false ->
    parseInsert c stmt
    = Ok (target c (Database c) (RetentionPolicy c) (parseNextIdentifier stmt).2).
Proof.
  intros c stmt Hins Hinto. unfold parseInsert.
  destruct (parseNextIdentifier stmt) as [i point]; simpl in *.
  rewrite Hins; simpl.
  destruct (parseNextIdentifier point) as [i' r]; simpl in *.
  by rewrite Hinto.
Qed.

Lemma parseInsert_without_into_witness :
  parseInsert session_d_r "insert cpu value=1"
  = Ok (target session_d_r "d" "r" " cpu value=1").
Proof.
  apply (parseInsert_without_into session_d_r "insert cpu value=1");
    reflexivity.
Defined.

(** C6 as stated fails on its own example: the point text keeps the space
    that follows [insert]. *)
Lemma parseInsert_without_into_keeps_space :
  parseInsert session_d_r "insert cpu value=1"
  <> Ok (target session_d_r "d" "r" "cpu value=1").
Proof. intros [=]. Qed.

(** ** Scope rewriting *)

Lemma qualify_qualified c m : qualified c m (qualify c m).
Proof.
  unfold qualified, qualify, nonEmpty; simpl.
  destruct (String.eqb_spec (influxql.Database m) "") as [Hd|Hd];
    destruct (String.eqb_spec (influxql.RetentionPolicy m) "") as [Hr|Hr];
    destruct (String.eqb_spec (Database c) "") as [Hcd|Hcd];
    destruct (String.eqb_spec (RetentionPolicy c) "") as [Hcr|Hcr];
    simpl; repeat split; intros; congruence.
Qed.

Lemma flat_map_map {A B C : Type} (g : B -> list C) (h : A -> B) (l : list A) :
  List.flat_map g (List.map h l) = List.flat_map (fun a => g (h a)) l.
Proof. induction l as [|a l IH]; simpl; [done | by rewrite IH]. Qed.

Lemma map_flat_map {A B C : Type} (f : B -> C) (g : A -> list B) (l : list A) :
  List.map f (List.flat_map g l) = List.flat_map (fun a => List.map f (g a)) l.
Proof.
  induction l as [|a l IH]; simpl; [done|].
  by rewrite List.map_app, IH.
Qed.

Lemma flat_map_ext_Forall {A B : Type} (g h : A -> list B) (l : list A) :
  List.Forall (fun a => g a = h a) l -> List.flat_map g l = List.flat_map h l.
Proof. induction 1 as [|a l Ha _ IH]; simpl; [done | by rewrite Ha, IH]. Qed.

(** The walk shows the function every measurement of the sources, once and
    in order, sub-queries included. *)
Lemma WalkSource_measurements (f : influxql.Measurement -> influxql.Measurement) :
  forall src : influxql.Source,
    influxql.SourceMeasurements (influxql.WalkSource f src)
    = List.map f (influxql.SourceMeasurements src).
Proof.
  fix IH 1. intros [m|[srcs cl]]; simpl; [done|].
  rewrite flat_map_map, map_flat_map.
  induction srcs as [|src srcs IHsrcs]; simpl; [done|].
  by rewrite IH, IHsrcs.
Qed.

Lemma WalkSelect_measurements (f : influxql.Measurement -> influxql.Measurement)
    (st : influxql.SelectStatement) :
  influxql.SelectMeasurements (influxql.WalkSelect f st)
  = List.map f (influxql.SelectMeasurements st).
Proof.
  apply (WalkSource_measurements f (influxql.SrcSubQuery st)).
Qed.

Lemma rewriteStatement_measurements c st :
  influxql.StatementMeasurements (rewriteStatement c st)
  = List.map (qualify c) (influxql.StatementMeasurements st).
Proof.
  destruct st as [[srcs cl]|text]; simpl; [|done].
  apply (WalkSelect_measurements (qualify c) (influxql.mkSelectStatement srcs cl)).
Qed.

Lemma Forall2_map_qualified c ms :
  List.Forall2 (qualified c) ms (List.map (qualify c) ms).
Proof.
  induction ms as [|m ms IH]; simpl; constructor; [apply qualify_qualified | done].
Qed.

(** C3: with a retention policy set and a query that parses, the query sent
    is the text of the rewritten statements, and statement by statement
    every measurement of the sources of a SELECT statement has got the
    session's database where it had none, the session's retention policy
    where it had none, and has kept every field it had. *)
Theorem ExecuteQuery_rewrites_sources :
  forall (ParseQuery : string -> result influxql.Query)
         (QueryString : influxql.Query -> string)
         (QueryContext : client.Query -> result client.Response)
         (interrupted : bool)
         (c : CommandLine) (q : string) (pq : influxql.Query),
    RetentionPolicy c <> "" ->
    ParseQuery q = Ok pq ->
    sent (ExecuteQuery ParseQuery QueryString QueryContext interrupted c q)
    = Some (query c (QueryString (rewriteSources c pq)))
    /\ List.Forall2
         (fun st st' =>
            List.Forall2 (qualified c)
              (influxql.StatementMeasurements st)
              (influxql.StatementMeasurements st'))
         (influxql.Statements pq)
         (influxql.Statements (rewriteSources c pq)).
Proof.
  intros PQ QS QC intr c q pq Hrp Hparse. split.
  - unfold ExecuteQuery, rewriteQuery, nonEmpty.
    destruct (String.eqb_spec (RetentionPolicy c) "") as [?|_]; [done|].
    simpl. rewrite Hparse. by destruct (QC _).
  - unfold rewriteSources; simpl.
    induction (influxql.Statements pq) as [|st sts IH]; simpl; constructor; [|done].
    rewrite rewriteStatement_measurements. apply Forall2_map_qualified.
Qed.

Lemma ExecuteQuery_rewrites_sources_witness :
  sent (ExecuteQuery sampleParser samplePrinter silentTransport false
          session_d_r "SELECT * FROM cpu, (SELECT * FROM other.weekly.mem); SHOW DATABASES")
  = Some (query session_d_r "d.r.cpu,other.weekly.mem")
  /\ List.Forall2
       (fun st st' =>
          List.Forall2 (qualified session_d_r)
            (influxql.StatementMeasurements st)
            (influxql.StatementMeasurements st'))
       (influxql.Statements sampleQuery)
       (influxql.Statements (rewriteSources session_d_r sampleQuery)).
Proof.
  apply (ExecuteQuery_rewrites_sources sampleParser samplePrinter silentTransport
           false session_d_r
           "SELECT * FROM cpu, (SELECT * FROM other.weekly.mem); SHOW DATABASES"
           sampleQuery).
  - discriminate.
  - reflexivity.
Defined.

(** ** Error classification *)

(** The context of the call is cancelled exactly when signals are not
    ignored and the relay cancelled it. *)
Lemma ctxErr_Canceled interrupted c :
  ctxErr interrupted c = Some Canceled
  <-> IgnoreSignals c = false /\ interrupted = true.
Proof.
  unfold ctxErr. destruct (IgnoreSignals c), interrupted; split;
    try done; intros [? ?]; done.
Qed.

(** C4: when the transport fails on the query sent, an empty error message
    is reported as "aborted by user" if the context of the call was
    cancelled and as "no data received" if the context reports no error; a
    non-empty message is reported as it is. *)
Theorem ExecuteQuery_classifies_transport_error :
  forall (ParseQuery : string -> result influxql.Query)
         (QueryString : influxql.Query -> string)
         (QueryContext : client.Query -> result client.Response)
         (interrupted : bool)
         (c : CommandLine) (q q' msg : string),
    rewriteQuery ParseQuery QueryString c q = Ok q' ->
    QueryContext (query c q') = Err msg ->
    (msg = "" -> ctxErr interrupted c = Some Canceled ->
     ExecuteQuery ParseQuery QueryString QueryContext interrupted c q
     = QueryFailed (query c q') "aborted by user")
    /\ (msg = "" -> ctxErr interrupted c = None ->
        ExecuteQuery ParseQuery QueryString QueryContext interrupted c q
        = QueryFailed (query c q') "no data received")
    /\ (msg <> "" ->
        ExecuteQuery ParseQuery QueryString QueryContext interrupted c q
        = QueryFailed (query c q') msg).
Proof.
  intros PQ QS QC intr c q q' msg Hrw Hqc.
  unfold ExecuteQuery. rewrite Hrw, Hqc. unfold classifyError.
  repeat split.
  - by intros -> ->.
  - by intros -> ->.
  - intros Hmsg. by destruct (String.eqb_spec msg "").
Qed.

Lemma ExecuteQuery_classifies_transport_error_witness :
  ExecuteQuery sampleParser samplePrinter silentTransport true session_d_r "SELECT * FROM cpu"
  = QueryFailed (query session_d_r "d.r.cpu,other.weekly.mem") "aborted by user"
  /\ ExecuteQuery sampleParser samplePrinter silentTransport false session_d_r "SELECT * FROM cpu"
     = QueryFailed (query session_d_r "d.r.cpu,other.weekly.mem") "no data received".
Proof.
  split.
  - destruct (ExecuteQuery_classifies_transport_error sampleParser samplePrinter
                silentTransport true session_d_r "SELECT * FROM cpu"
                "d.r.cpu,other.weekly.mem" "" eq_refl eq_refl) as (Haborted & _ & _).
    apply Haborted; reflexivity.
  - destruct (ExecuteQuery_classifies_transport_error sampleParser samplePrinter
                silentTransport false session_d_r "SELECT * FROM cpu"
                "d.r.cpu,other.weekly.mem" "" eq_refl eq_refl) as (_ & Hnodata & _).
    apply Hnodata; reflexivity.
Defined.

Example ExecuteQuery_surfaces_message :
  ExecuteQuery sampleParser samplePrinter refusingTransport true session_d_r "SELECT * FROM cpu"
  = QueryFailed (query session_d_r "d.r.cpu,other.weekly.mem") "connection refused".
Proof. reflexivity. Qed.

(** ** Rendering *)

Example formatResults_csv_sample :
  formatResults session_csv (cpuResult [[VInt 1; VFloat "0.5"]; [VInt 2; VNil]]) tab false
  = [ "name" +:+ tab +:+ "tags" +:+ tab +:+ "time" +:+ tab +:+ "value";
      "cpu" +:+ tab +:+ "dc=x,host=a" +:+ tab +:+ "1" +:+ tab +:+ "0.5";
      "cpu" +:+ tab +:+ "dc=x,host=a" +:+ tab +:+ "2" +:+ tab ].
Proof. vm_compute. reflexivity. Qed.

Example formatResults_column_sample :
  formatResults session_d_r (cpuResult [[VInt 1; VBool true]]) tab false
  = [ "name: cpu"; "tags: dc=x, host=a";
      "time" +:+ tab +:+ "value"; "----" +:+ tab +:+ "-----";
      "1" +:+ tab +:+ "true" ].
Proof. vm_compute. reflexivity. Qed.

Lemma length_sortStrings l : length (sortStrings l) = length l.
Proof. unfold sortStrings. apply Permutation_length, merge_sort_Permutation. Qed.

Lemma length_gatherTags_fold (l : list (string * string)) (acc : list string) :
  length (foldl (fun acc kv => sortStrings (acc ++ [kv.1 +:+ "=" +:+ kv.2])) acc l)
  = length acc + length l.
Proof.
  revert acc; induction l as [|kv l IH]; intros acc; simpl; [lia|].
  rewrite IH, length_sortStrings, length_app. simpl. lia.
Qed.

(** The series has a tag text for every entry of its tag map. *)
Lemma length_gatherTags (m : gmap string string) :
  length (gatherTags (Some m)) = size m.
Proof.
  unfold gatherTags. rewrite length_gatherTags_fold. simpl.
  apply length_map_to_list.
Qed.

Lemma gatherTags_hasTags row :
  (0 <? length (gatherTags (models.Tags row)))%nat = hasTags row.
Proof.
  unfold hasTags. destruct (models.Tags row) as [m|]; [|done].
  rewrite length_gatherTags.
  destruct (decide (m = ∅)) as [->|Hne].
  - by rewrite map_size_empty.
  - rewrite bool_decide_eq_false_2 by done. simpl.
    apply Nat.ltb_lt. apply map_size_non_empty_iff in Hne. lia.
Qed.

Lemma Format_csv c : Format c = "csv" -> isCSV c = true /\ isColumn c = false.
Proof. unfold isCSV, isColumn. by intros ->. Qed.

Lemma Format_column c : Format c = "column" -> isCSV c = false /\ isColumn c = true.
Proof. unfold isCSV, isColumn. by intros ->. Qed.

Lemma columnNames_csv c row : Format c = "csv" -> columnNames c row = csvHeader row.
Proof.
  intros [Hcsv _]%Format_csv. unfold columnNames, csvHeader.
  rewrite Hcsv, gatherTags_hasTags.
  by destruct (nonEmpty _), (hasTags row).
Qed.

Lemma valueRows_csv c separator row :
  Format c = "csv" ->
  valueRows c separator row
  = List.map (fun v => Join (csvRecord row v) separator) (models.Values row).
Proof.
  intros [Hcsv _]%Format_csv. unfold valueRows, csvRecord.
  rewrite Hcsv, gatherTags_hasTags.
  apply List.map_ext; intros v.
  destruct (nonEmpty _), (hasTags row); simpl; by rewrite <- ?app_assoc.
Qed.

Lemma columnNames_column c row :
  Format c = "column" -> columnNames c row = elems (models.Columns row).
Proof. intros [Hcsv _]%Format_column. unfold columnNames. by rewrite Hcsv. Qed.

Lemma valueRows_column c separator row :
  Format c = "column" -> valueRows c separator row = plainRows separator row.
Proof. intros [Hcsv _]%Format_column. unfold valueRows. by rewrite Hcsv. Qed.

(** With the headers suppressed, a series contributes the lines of its
    values and nothing else. *)
Lemma formatSeries_suppressed c separator i row :
  formatSeries c separator true i row = valueRows c separator row.
Proof.
  unfold formatSeries. by rewrite !andb_false_r.
Qed.

Lemma formatSeries_csv c separator i row :
  Format c = "csv" ->
  formatSeries c separator false i row
  = Join (csvHeader row) separator
    :: List.map (fun v => Join (csvRecord row v) separator) (models.Values row).
Proof.
  intros Hf. unfold formatSeries.
  rewrite (columnNames_csv _ _ Hf), (valueRows_csv _ _ _ Hf).
  apply Format_csv in Hf as [_ ->]. by rewrite !andb_false_r.
Qed.

Lemma formatSeries_column c separator i row :
  Format c = "column" ->
  formatSeries c separator false i row
  = (if (0 <? i)%nat then [""] else [])
    ++ columnHeading separator row ++ plainRows separator row.
Proof.
  intros Hf. unfold formatSeries, columnHeading.
  rewrite (columnNames_column _ _ Hf), (valueRows_column _ _ _ Hf).
  rewrite gatherTags_hasTags.
  apply Format_column in Hf as [_ ->]. rewrite !andb_true_r. simpl.
  by rewrite <- !app_assoc.
Qed.

Lemma formatResults_from_imap c separator suppress i series :
  formatResults_from c separator suppress i series
  = concat (imap (fun j row => formatSeries c separator suppress (i + j) row) series).
Proof.
  revert i; induction series as [|row series IH]; intros i; simpl; [done|].
  rewrite Nat.add_0_r, IH. do 2 f_equal.
  apply imap_ext; intros j x _. simpl. f_equal. lia.
Qed.

Lemma formatResults_suppressed c result separator :
  formatResults c result separator true
  = List.flat_map (valueRows c separator) (client.Series result).
Proof.
  unfold formatResults. generalize 0.
  induction (client.Series result) as [|row series IH]; intros i; simpl; [done|].
  by rewrite formatSeries_suppressed, IH.
Qed.

Lemma formatResults_csv c result separator :
  Format c = "csv" ->
  formatResults c result separator false
  = List.flat_map
      (fun row =>
         Join (csvHeader row) separator
         :: List.map (fun v => Join (csvRecord row v) separator)
                     (models.Values row))
      (client.Series result).
Proof.
  intros Hf. unfold formatResults. generalize 0.
  induction (client.Series result) as [|row series IH]; intros i; simpl; [done|].
  by rewrite (formatSeries_csv _ _ _ _ Hf), IH.
Qed.

Lemma formatResults_column c result separator suppress :
  Format c = "column" ->
  formatResults c result separator suppress
  = concat
      (imap
         (fun i row =>
            (if suppress then []
             else (if (0 <? i)%nat then [""] else [])
                  ++ columnHeading separator row)
            ++ plainRows separator row)
         (client.Series result)).
Proof.
  intros Hf. unfold formatResults.
  rewrite formatResults_from_imap. f_equal.
  apply imap_ext; intros i row _; simpl.
  destruct suppress.
  - by rewrite formatSeries_suppressed, (valueRows_column _ _ _ Hf).
  - by rewrite (formatSeries_column _ _ _ _ Hf), <- app_assoc.
Qed.

(** C7: in csv format with headers not suppressed, the header record of a
    series has a [name] field exactly when the series has a name and a
    [tags] field exactly when it has tags, and the record of each row of
    values starts with the name and with the tags joined by commas under the
    same conditions; in column format neither the line of column names nor
    a line of values has a field for the name or the tags. *)
Theorem formatResults_name_and_tags_columns :
  forall (c : CommandLine) (result : client.Result) (separator : string),
    (Format c = "csv" ->
     formatResults c result separator false
     = List.flat_map
         (fun row =>
            Join (csvHeader row) separator
            :: List.map (fun v => Join (csvRecord row v) separator)
                        (models.Values row))
         (client.Series result))
    /\ (Format c = "column" ->
        forall suppress : bool,
          formatResults c result separator suppress
          = concat
              (imap
                 (fun i row =>
                    (if suppress then []
                     else (if (0 <? i)%nat then [""] else [])
                          ++ columnHeading separator row)
                    ++ plainRows separator row)
                 (client.Series result))).
Proof.
  intros c result separator; split; intros Hf.
  - by apply formatResults_csv.
  - intros suppress. by apply formatResults_column.
Qed.

Lemma formatResults_name_and_tags_columns_witness :
  formatResults session_csv
    {| client.Series := [cpuRow [[VInt 1]]; bareRow [[VInt 2]]]; client.Messages := [] |}
    tab false
  = [ "name" +:+ tab +:+ "tags" +:+ tab +:+ "time" +:+ tab +:+ "value";
      "cpu" +:+ tab +:+ "dc=x,host=a" +:+ tab +:+ "1";
      "";
      "2" ]
  /\ formatResults session_d_r
       {| client.Series := [cpuRow [[VInt 1]]; bareRow [[VInt 2]]]; client.Messages := [] |}
       tab false
     = [ "name: cpu"; "tags: dc=x, host=a";
         "time" +:+ tab +:+ "value"; "----" +:+ tab +:+ "-----"; "1";
         ""; ""; ""; "2" ].
Proof.
  split.
  - destruct (formatResults_name_and_tags_columns session_csv
                {| client.Series := [cpuRow [[VInt 1]]; bareRow [[VInt 2]]];
                   client.Messages := [] |} tab) as [Hcsv _].
    rewrite Hcsv by reflexivity. vm_compute. reflexivity.
  - destruct (formatResults_name_and_tags_columns session_d_r
                {| client.Series := [cpuRow [[VInt 1]]; bareRow [[VInt 2]]];
                   client.Messages := [] |} tab) as [_ Hcol].
    rewrite Hcol by reflexivity. vm_compute. reflexivity.
Defined.

(** ** Header suppression across results *)

Lemma headersEqual_spec prev current :
  headersEqual prev current = true
  <-> models.Name current = models.Name prev
      /\ models.Tags current = models.Tags prev
      /\ models.Columns current = models.Columns prev.
Proof.
  unfold headersEqual, tagsEqual, columnsEqual.
  destruct (String.eqb_spec (models.Name prev) (models.Name current)) as [Hn|Hn]; simpl.
  - rewrite andb_true_iff, !bool_decide_eq_true.
    split; [intros [Ht Hc] | intros (_ & Ht & Hc)]; by rewrite Ht, Hc.
  - split; [done | intros (? & _); congruence].
Qed.

Lemma suppressHeaders_sameHeader prev result :
  suppressHeaders prev result = true <-> sameHeader prev result.
Proof.
  unfold suppressHeaders, sameHeader.
  destruct (client.Series result) as [|first others].
  - split; [done | by intros (? & ? & ? & _)].
  - rewrite headersEqual_spec. split.
    + intros H. by exists first, others.
    + by intros (? & ? & [= <- <-] & H).
Qed.



Lemma writeCSV_from_app c prev pre post :
  writeCSV_from c prev (pre ++ post)
  = writeCSV_from c prev pre ++ writeCSV_from c (headersAfter prev pre) post.
Proof.
  revert prev; induction pre as [|result pre IH]; intros prev; simpl; [done|].
  by rewrite IH, <- !app_assoc.
Qed.

(** The header kept for comparison after a result whose headers were
    written is the header of its first series. *)
Lemma nextHeaders_rendered prev result first others :
  client.Series result = first :: others ->
  suppressHeaders prev result = false ->
  sameHeader (nextHeaders prev result) result.
Proof.
  intros Hs Hsup. unfold nextHeaders. rewrite Hs, Hsup. simpl.
  by exists first, others.
Qed.



(** C2, at a result of several series: the header compared is that of the
    first series of the last result written with its headings, not the
    header rendered last.  After a result with the series cpu and mem,
    written in full, the header rendered last is that of mem.  A next result
    whose first series is mem is not suppressed: a blank line and the
    heading of mem are written again before its values.  A next result
    whose first series is cpu is suppressed: its values are written right
    under the values of mem, below the heading of mem. *)
Theorem writeColumns_compares_first_series_only :
  writeColumns session_d_r (cpuMemThen (memRow [[VInt 2; VInt 21]]))
  = List.map Line
      [ "name: cpu"; "tags: dc=x, host=a";
        "time" +:+ tab +:+ "value"; "----" +:+ tab +:+ "-----";
        "1" +:+ tab +:+ "10";
        "";
        "name: mem";
        "time" +:+ tab +:+ "free"; "----" +:+ tab +:+ "----";
        "1" +:+ tab +:+ "20";
        "";
        "name: mem";
        "time" +:+ tab +:+ "free"; "----" +:+ tab +:+ "----";
        "2" +:+ tab +:+ "21" ]
  /\ writeColumns session_d_r (cpuMemThen (cpuRow [[VInt 2; VInt 11]]))
     = List.map Line
         [ "name: cpu"; "tags: dc=x, host=a";
           "time" +:+ tab +:+ "value"; "----" +:+ tab +:+ "-----";
           "1" +:+ tab +:+ "10";
           "";
           "name: mem";
           "time" +:+ tab +:+ "free"; "----" +:+ tab +:+ "----";
           "1" +:+ tab +:+ "20";
           "2" +:+ tab +:+ "11" ].
Proof. split; vm_compute; reflexivity. Qed.

(** C10: when the first series of the first result has an empty name, a nil
    tag map and a nil column list, it is judged to have the header kept from
    before, which is the zero value, and its headers are suppressed in both
    formats: only the lines, respectively records, of its values are
    written, and the header kept stays the zero value. *)
Theorem first_result_with_zero_header_is_suppressed :
  forall (c : CommandLine) (result : client.Result) (rest : list client.Result)
         (first : models.Row) (others : list models.Row),
    client.Series result = first :: others ->
    models.Name first = "" ->
    models.Tags first = None ->
    models.Columns first = None ->
    headersEqual zeroRow first = true
    /\ (Format c = "column" ->
        writeColumns c {| client.Results := result :: rest |}
        = List.map (fun m => Direct (messageText m)) (client.Messages result)
          ++ List.map Line (List.flat_map (plainRows tab) (client.Series result))
          ++ writeColumns_from c zeroRow 1 rest)
    /\ (Format c = "csv" ->
        writeCSV c {| client.Results := result :: rest |}
        = List.map (fun r => Split r "009"%char)
            (List.flat_map
               (fun row =>
                  List.map (fun v => Join (csvRecord row v) tab) (models.Values row))
               (client.Series result))
          ++ writeCSV_from c zeroRow rest).
Proof.
  intros c result rest first others Hseries Hname Htags Hcols.
  assert (headersEqual zeroRow first = true) as Heq.
  { by apply headersEqual_spec. }
  assert (suppressHeaders zeroRow result = true) as Hsup.
  { unfold suppressHeaders. by rewrite Hseries. }
  assert (nextHeaders zeroRow result = zeroRow) as Hnext.
  { unfold nextHeaders. by rewrite Hseries, Hsup. }
  split; [done|]. split; intros Hf.
  - unfold writeColumns. cbn [writeColumns_from client.Results].
    rewrite Hsup, Hnext, formatResults_suppressed. simpl. do 3 f_equal.
    apply List.flat_map_ext; intros row. by apply valueRows_column.
  - unfold writeCSV. cbn [writeCSV_from client.Results].
    rewrite Hsup, Hnext, formatResults_suppressed. do 2 f_equal.
    apply List.flat_map_ext; intros row. by apply valueRows_csv.
Qed.

Lemma first_result_with_zero_header_is_suppressed_witness :
  headersEqual zeroRow (bareRow [[VInt 3; VBool false]]) = true
  /\ writeColumns session_d_r
       {| client.Results := [bareResult [[VInt 3; VBool false]]; cpuResult [[VInt 1]]] |}
     = [ Line ("3" +:+ tab +:+ "false");
         Direct ("warning: slow." +:+ String "010"%char EmptyString);
         Line "";
         Line "name: cpu"; Line "tags: dc=x, host=a";
         Line ("time" +:+ tab +:+ "value"); Line ("----" +:+ tab +:+ "-----");
         Line "1" ]
  /\ writeCSV session_csv
       {| client.Results := [bareResult [[VInt 3; VBool false]]; cpuResult [[VInt 1]]] |}
     = [ ["3"; "false"];
         ["name"; "tags"; "time"; "value"];
         ["cpu"; "dc=x,host=a"; "1"] ].
Proof.
  destruct (first_result_with_zero_header_is_suppressed session_d_r
              (bareResult [[VInt 3; VBool false]]) [cpuResult [[VInt 1]]]
              (bareRow [[VInt 3; VBool false]]) [] eq_refl eq_refl eq_refl eq_refl)
    as (Heq & Hcol & _).
  destruct (first_result_with_zero_header_is_suppressed session_csv
              (bareResult [[VInt 3; VBool false]]) [cpuResult [[VInt 1]]]
              (bareRow [[VInt 3; VBool false]]) [] eq_refl eq_refl eq_refl eq_refl)
    as (_ & _ & Hcsv).
  split; [exact Heq|]. split.
  - refine (eq_trans (Hcol eq_refl) _). vm_compute. reflexivity.
  - refine (eq_trans (Hcsv eq_refl) _). vm_compute. reflexivity.
Defined.

(** ** Case folding of the keywords *)

Example EqualFold_mixed_case : EqualFold "InSeRt" "insert" = true.
Proof. reflexivity. Qed.

Example EqualFold_longer : EqualFold "inserts" "insert" = false.
Proof. reflexivity. Qed.

(** The long s (bytes 197, 191) folds to [s]. *)
Example EqualFold_long_s :
  EqualFold ("in" +:+ String "197"%char (String "191"%char "ert")) "insert" = true.
Proof. reflexivity. Qed.

(** ** From lines to csv records *)

Lemma FormatResponse_column c response :
  Format c = "column" ->
  FormatResponse c response = RenderedColumns (writeColumns c response).
Proof. unfold FormatResponse. by intros ->. Qed.

Lemma FormatResponse_csv c response :
  Format c = "csv" ->
  FormatResponse c response = RenderedCSV (writeCSV c response).
Proof. unfold FormatResponse. by intros ->. Qed.

Lemma Split_from_tabFree field cur :
  tabFree field = true ->
  Split_from "009"%char cur field = [cur +:+ field].
Proof.
  revert cur; induction field as [|ch field IH]; intros cur Hfree.
  - by rewrite append_nil_r.
  - cbn [tabFree] in Hfree. apply andb_true_iff in Hfree as [Hch Hfree].
    apply negb_true_iff in Hch. cbn [Split_from]. rewrite Hch, IH by done.
    by rewrite append_assoc', append_cons, append_nil_l.
Qed.

Lemma Split_from_field field cur rest :
  tabFree field = true ->
  Split_from "009"%char cur (field +:+ tab +:+ rest)
  = (cur +:+ field) :: Split_from "009"%char EmptyString rest.
Proof.
  revert cur; induction field as [|ch field IH]; intros cur Hfree.
  - rewrite append_nil_l, append_nil_r. unfold tab.
    rewrite append_cons, append_nil_l. cbn [Split_from].
    by rewrite Ascii.eqb_refl.
  - cbn [tabFree] in Hfree. apply andb_true_iff in Hfree as [Hch Hfree].
    apply negb_true_iff in Hch. rewrite append_cons. cbn [Split_from].
    rewrite Hch, IH by done.
    by rewrite append_assoc', append_cons, append_nil_l.
Qed.

(** Splitting the line that joins tab-free fields gives the fields back. *)
Lemma Split_Join fields :
  fields <> [] ->
  List.Forall (fun field => tabFree field = true) fields ->
  Split (Join fields tab) "009"%char = fields.
Proof.
  intros Hne Hfree. unfold Split.
  induction Hfree as [|field fields Hfield Hfields IH]; [done|].
  destruct fields as [|field' fields].
  - cbn [Join]. by rewrite Split_from_tabFree.
  - change (Join (field :: field' :: fields) tab)
      with (field +:+ tab +:+ Join (field' :: fields) tab).
    rewrite Split_from_field by done. rewrite append_nil_l. f_equal.
    by apply IH.
Qed.

(** The header record that [writeCSV] hands to the csv writer for a result
    of one series, when the headers are written and no field holds a tab. *)
Lemma writeCSV_header_record c prev row :
  Format c = "csv" ->
  suppressHeaders prev {| client.Series := [row]; client.Messages := [] |} = false ->
  csvHeader row <> [] ->
  List.Forall (fun field => tabFree field = true) (csvHeader row) ->
  head (writeCSV_from c prev [ {| client.Series := [row]; client.Messages := [] |} ])
  = Some (csvHeader row).
Proof.
  intros Hf Hsup Hne Hfree. cbn [writeCSV_from]. rewrite Hsup.
  rewrite (formatResults_csv _ _ _ Hf). simpl.
  by rewrite Split_Join.
Qed.

(** * Further properties *)

(** ** The lexer on each shape of input *)

Lemma parseNextIdentifier_ws ws text :
  allWhitespace ws = true ->
  parseNextIdentifier (ws +:+ text) = parseNextIdentifier text.
Proof.
  induction ws as [|ch ws IH]; intros Hws; [reflexivity|].
  cbn [allWhitespace] in Hws. apply andb_true_iff in Hws as [Hch Hws].
  rewrite append_cons. cbn [parseNextIdentifier]. rewrite Hch. by apply IH.
Qed.

(** X1: after any leading whitespace, an unquoted identifier is returned
    whole, up to the first character that cannot be part of it, and the
    remainder starts at that character. *)
Theorem lexer_returns_unquoted_identifier :
  forall ws ident rest : string,
    allWhitespace ws = true ->
    unquotedIdent ident = true ->
    endsIdent rest = true ->
    parseNextIdentifier (ws +:+ ident +:+ rest) = (ident, rest).
Proof.
  intros ws ident rest Hws Hid Hend.
  rewrite parseNextIdentifier_ws by done.
  by apply parseNextIdentifier_unquoted.
Qed.

Lemma lexer_returns_unquoted_identifier_witness :
  parseNextIdentifier ("  " +:+ "cpu_load1" +:+ ",host=a value=1")
  = ("cpu_load1", ",host=a value=1").
Proof.
  apply (lexer_returns_unquoted_identifier "  " "cpu_load1" ",host=a value=1");
    reflexivity.
Defined.

(** X2: after any leading whitespace, a quoted identifier whose non-empty
    body uses the backslash only to escape a double quote is returned
    without its quotes, escapes kept, and the remainder starts right after
    the closing quote, whatever follows. *)
Theorem lexer_returns_quoted_identifier :
  forall ws body rest : string,
    allWhitespace ws = true ->
    body <> EmptyString ->
    escapedBody body = true ->
    parseNextIdentifier (ws +:+ quoted body rest) = (body, rest).
Proof.
  intros ws body rest Hws Hne Hbody.
  rewrite parseNextIdentifier_ws by done.
  by apply parseNextIdentifier_quoted.
Qed.

Lemma lexer_returns_quoted_identifier_witness :
  parseNextIdentifier (" " +:+ quoted "my db" ".rp cpu")
  = ("my db", ".rp cpu").
Proof.
  apply (lexer_returns_quoted_identifier " " "my db" ".rp cpu");
    [reflexivity | discriminate | reflexivity].
Defined.

(** X3: where no identifier starts, the lexer returns the empty identifier;
    the whitespace it skipped on the way is nevertheless consumed: the
    remainder is the input without its leading whitespace. *)
Theorem lexer_without_identifier_consumes_whitespace :
  forall ws rest : string,
    allWhitespace ws = true ->
    noIdentifierAt rest = true ->
    parseNextIdentifier (ws +:+ rest) = (EmptyString, rest).
Proof.
  intros ws rest Hws Hno.
  rewrite parseNextIdentifier_ws by done.
  destruct rest as [|ch rest]; [done|].
  cbn [noIdentifierAt] in Hno.
  apply andb_true_iff in Hno as [[Hw Hi]%andb_true_iff Hq].
  apply negb_true_iff in Hw, Hi, Hq.
  cbn [parseNextIdentifier]. by rewrite Hw, Hi, Hq.
Qed.

Lemma lexer_without_identifier_consumes_whitespace_witness :
  parseNextIdentifier ("   " +:+ "=1") = (EmptyString, "=1").
Proof.
  apply (lexer_without_identifier_consumes_whitespace "   " "=1"); reflexivity.
Defined.

Lemma HasPrefix_longer s ch t :
  strings.HasPrefix s (s +:+ String ch t) = false.
Proof.
  induction s as [|c s IH]; [reflexivity|].
  rewrite append_cons. cbn [strings.HasPrefix].
  by rewrite Ascii.eqb_refl.
Qed.

(** X4: a quoted identifier that is never closed is still returned as the
    identifier, but nothing is consumed: the remainder is the whole input,
    opening quote included. *)
Theorem lexer_unterminated_quote_consumes_nothing :
  forall body : string,
    body <> EmptyString ->
    escapedBody body = true ->
    parseNextIdentifier (String dquote body) = (body, String dquote body).
Proof.
  intros body Hne Hbody. cbn [parseNextIdentifier].
  change (isWhitespace dquote) with false.
  change (isIdentFirstChar dquote) with false.
  change (Ascii.eqb dquote dquote) with true. cbv iota.
  unfold parseDoubleQuotedIdentifier, strings.FieldsFunc.
  cbn [strings.FieldsFunc_from].
  change (quoteSeparator false dquote) with (true, false). cbv iota beta.
  rewrite <- (append_nil_r body) at 1.
  rewrite FieldsFunc_from_escapedBody by done.
  cbn [strings.FieldsFunc_from]. f_equal.
  unfold strings.TrimPrefix. cbn [strings.HasPrefix].
  change (Ascii.eqb dquote dquote) with true. cbv iota.
  by rewrite HasPrefix_longer.
Qed.

Lemma lexer_unterminated_quote_consumes_nothing_witness :
  parseNextIdentifier (String dquote "my db cpu value=1")
  = ("my db cpu value=1", String dquote "my db cpu value=1").
Proof.
  apply (lexer_unterminated_quote_consumes_nothing "my db cpu value=1");
    [discriminate | reflexivity].
Defined.

Lemma FieldsFunc_from_open_prefix {St : Type} (f : St -> ascii -> bool * St) s :
  forall st fld,
    exists t fs, strings.FieldsFunc_from f st (Some fld) s = (fld +:+ t) :: fs.
Proof.
  induction s as [|ch s IH]; intros st fld; cbn [strings.FieldsFunc_from].
  - exists EmptyString, []. by rewrite append_nil_r.
  - destruct (f st ch) as [[] st'].
    + exists EmptyString. eexists. by rewrite append_nil_r.
    + destruct (IH st' (fld +:+ String ch EmptyString)) as (t & fs & ->).
      exists (String ch t), fs.
      by rewrite append_assoc', append_cons, append_nil_l.
Qed.

(** The first field that the closure of the quoted path cuts out never
    starts with a double quote. *)
Lemma quoted_first_field_not_quote s :
  forall f0 fs,
    strings.FieldsFunc_from quoteSeparator false None s = f0 :: fs ->
    exists ch t, f0 = String ch t /\ Ascii.eqb ch dquote = false.
Proof.
  induction s as [|ch s IH]; intros f0 fs Hf; [done|].
  cbn [strings.FieldsFunc_from] in Hf. unfold quoteSeparator in Hf.
  destruct (Ascii.eqb ch "\"%char) eqn:Hbs; cbv beta iota in Hf.
  - apply Ascii.eqb_eq in Hbs as ->.
    destruct (FieldsFunc_from_open_prefix quoteSeparator s true
                (String "\"%char EmptyString)) as (t & fs' & Heq).
    unfold quoteSeparator in Heq. rewrite Heq in Hf. injection Hf as <- _.
    by exists "\"%char, t.
  - destruct (Ascii.eqb ch dquote) eqn:Hq; cbn [negb] in Hf; cbv beta iota in Hf.
    + by apply IH in Hf.
    + destruct (FieldsFunc_from_open_prefix quoteSeparator s false
                  (String ch EmptyString)) as (t & fs' & Heq).
      unfold quoteSeparator in Heq. rewrite Heq in Hf. injection Hf as <- _.
      by exists ch, t.
Qed.

(** X5: an empty quoted identifier is not consumed: on an input that starts
    with two double quotes the remainder is the whole input. *)
Theorem lexer_empty_quoted_identifier_consumes_nothing :
  forall rest : string,
    (parseNextIdentifier (String dquote (String dquote rest))).2
    = String dquote (String dquote rest).
Proof.
  intros rest. cbn [parseNextIdentifier].
  change (isWhitespace dquote) with false.
  change (isIdentFirstChar dquote) with false.
  change (Ascii.eqb dquote dquote) with true. cbv iota.
  unfold parseDoubleQuotedIdentifier, strings.FieldsFunc.
  cbn [strings.FieldsFunc_from].
  change (quoteSeparator false dquote) with (true, false). cbv iota beta.
  cbn [strings.FieldsFunc_from].
  change (quoteSeparator false dquote) with (true, false). cbv iota beta.
  destruct (strings.FieldsFunc_from quoteSeparator false None rest)
    as [|f0 fs] eqn:Hf; [reflexivity|].
  apply quoted_first_field_not_quote in Hf as (ch & t & -> & Hch).
  cbn [snd]. unfold strings.TrimPrefix.
  rewrite append_cons. cbn [strings.HasPrefix].
  change (Ascii.eqb dquote dquote) with true. cbv iota.
  by rewrite Hch.
Qed.

Example lexer_empty_quoted_identifier :
  parseNextIdentifier (String dquote (String dquote " cpu value=1"))
  = (" cpu value=1", String dquote (String dquote " cpu value=1")).
Proof. reflexivity. Qed.

(** ** INSERT with a target *)

Lemma parseNextIdentifier_text text ident rest :
  identifierText text ident ->
  endsIdent rest = true ->
  parseNextIdentifier (text +:+ rest) = (ident, rest).
Proof.
  intros [id Hid | body Hne Hbody] Hend.
  - by apply parseNextIdentifier_unquoted.
  - replace (quoted body EmptyString +:+ rest) with (quoted body rest).
    + by apply parseNextIdentifier_quoted.
    + unfold quoted.
      by rewrite (append_cons dquote), append_assoc', (append_cons dquote), append_nil_l.
Qed.

(** Once the keywords are read, the rest of the statement goes to
    [parseInto]. *)
Lemma parseInsert_keywords c kw1 kw2 rest :
  unquotedIdent kw1 = true -> EqualFold kw1 "insert" = true ->
  unquotedIdent kw2 = true -> EqualFold kw2 "into" = true ->
  endsIdent rest = true ->
  parseInsert c (kw1 +:+ " " +:+ kw2 +:+ rest) = Ok (parseInto c rest).
Proof.
  intros Hk1 Hf1 Hk2 Hf2 Hend. unfold parseInsert.
  rewrite (parseNextIdentifier_unquoted kw1 (" " +:+ kw2 +:+ rest)) by done.
  rewrite Hf1. cbn [negb].
  change (parseNextIdentifier (" " +:+ kw2 +:+ rest))
    with (parseNextIdentifier (kw2 +:+ rest)).
  rewrite (parseNextIdentifier_unquoted kw2 rest) by done.
  by rewrite Hf2.
Qed.

(** X6: [INSERT INTO <db>.<rp> <point>], with the keywords unquoted in any
    case and each of the two identifiers an identifier text (unquoted, or
    quoted with a non-empty body in which a backslash only stands right
    before a double quote and a double quote only right after a backslash):
    the target has that database and that retention policy, whatever the
    session's are, and the point text is what follows the single space
    after the retention policy. *)
Theorem parseInsert_into_database_and_retention_policy :
  forall (c : CommandLine) (kw1 kw2 textdb db textrp rp pt : string),
    unquotedIdent kw1 = true -> EqualFold kw1 "insert" = true ->
    unquotedIdent kw2 = true -> EqualFold kw2 "into" = true ->
    identifierText textdb db ->
    identifierText textrp rp ->
    parseInsert c (kw1 +:+ " " +:+ kw2 +:+ " " +:+ textdb +:+ "." +:+ textrp
                   +:+ " " +:+ pt)
    = Ok (target c db rp pt).
Proof.
  intros c kw1 kw2 textdb db textrp rp pt Hk1 Hf1 Hk2 Hf2 Hdb Hrp.
  rewrite parseInsert_keywords by done.
  unfold parseInto.
  change (parseNextIdentifier (" " +:+ textdb +:+ "." +:+ textrp +:+ " " +:+ pt))
    with (parseNextIdentifier (textdb +:+ "." +:+ textrp +:+ " " +:+ pt)).
  rewrite (parseNextIdentifier_text textdb db ("." +:+ textrp +:+ " " +:+ pt))
    by done.
  change (strings.HasPrefix ("." +:+ textrp +:+ " " +:+ pt) ".") with true.
  cbv iota.
  change (strings.drop 1 ("." +:+ textrp +:+ " " +:+ pt))
    with (textrp +:+ " " +:+ pt).
  rewrite (parseNextIdentifier_text textrp rp (" " +:+ pt)) by done.
  reflexivity.
Qed.

Lemma parseInsert_into_database_and_retention_policy_witness :
  parseInsert session_d_r
    ("Insert" +:+ " " +:+ "iNTO" +:+ " " +:+ quoted "d b" EmptyString +:+ "."
     +:+ "myrp" +:+ " " +:+ "cpu value=1")
  = Ok (target session_d_r "d b" "myrp" "cpu value=1").
Proof.
  apply (parseInsert_into_database_and_retention_policy session_d_r
           "Insert" "iNTO" (quoted "d b" EmptyString) "d b" "myrp" "myrp"
           "cpu value=1"); try reflexivity.
  - apply quotedText; [discriminate | reflexivity].
  - apply unquotedText. reflexivity.
Defined.

(** X7: [INSERT INTO .<rp> <point>], with nothing before the dot, the
    keywords unquoted in any case and the retention policy an identifier
    text (unquoted, or quoted with a non-empty body in which a backslash
    only stands right before a double quote and a double quote only right
    after a backslash): the database of the target is empty, not the
    session's current database, and its retention policy is the one
    written. *)
Theorem parseInsert_into_dot_empties_database :
  forall (c : CommandLine) (kw1 kw2 textrp rp pt : string),
    unquotedIdent kw1 = true -> EqualFold kw1 "insert" = true ->
    unquotedIdent kw2 = true -> EqualFold kw2 "into" = true ->
    identifierText textrp rp ->
    parseInsert c (kw1 +:+ " " +:+ kw2 +:+ " " +:+ "." +:+ textrp +:+ " " +:+ pt)
    = Ok (target c "" rp pt).
Proof.
  intros c kw1 kw2 textrp rp pt Hk1 Hf1 Hk2 Hf2 Hrp.
  rewrite parseInsert_keywords by done.
  unfold parseInto.
  change (parseNextIdentifier (" " +:+ "." +:+ textrp +:+ " " +:+ pt))
    with (EmptyString, "." +:+ textrp +:+ " " +:+ pt).
  cbv iota beta.
  change (strings.HasPrefix ("." +:+ textrp +:+ " " +:+ pt) ".") with true.
  cbv iota.
  change (strings.drop 1 ("." +:+ textrp +:+ " " +:+ pt))
    with (textrp +:+ " " +:+ pt).
  rewrite (parseNextIdentifier_text textrp rp (" " +:+ pt)) by done.
  reflexivity.
Qed.

Lemma parseInsert_into_dot_empties_database_witness :
  parseInsert session_d_r
    ("INSERT" +:+ " " +:+ "INTO" +:+ " " +:+ "." +:+ "test" +:+ " " +:+ "cpu value=1")
  = Ok (target session_d_r "" "test" "cpu value=1").
Proof.
  apply (parseInsert_into_dot_empties_database session_d_r
           "INSERT" "INTO" "test" "test" "cpu value=1"); try reflexivity.
  apply unquotedText. reflexivity.
Defined.

(** X8: [parseInsert] fails only on the first identifier: when it does not
    fold to INSERT the error names it, whatever the session is, and when it
    does the statement is accepted whatever follows. *)
Theorem parseInsert_fails_only_on_first_identifier :
  forall (c : CommandLine) (stmt : string),
    (EqualFold (parseNextIdentifier stmt).1 "insert" = false ->
     parseInsert c stmt
     = Err ("found " +:+ (parseNextIdentifier stmt).1 +:+ ", expected INSERT"))
    /\ (EqualFold (parseNextIdentifier stmt).1 "insert" = true ->
        exists bp, parseInsert c stmt = Ok bp).
Proof.
  intros c stmt. unfold parseInsert.
  destruct (parseNextIdentifier stmt) as [i point]; cbn [fst].
  split; intros ->; cbn [negb]; [done|].
  destruct (parseNextIdentifier point) as [i' r].
  destruct (EqualFold i' "into"); eauto.
Qed.

Lemma parseInsert_fails_only_on_first_identifier_witness :
  parseInsert session_d_r "" = Err "found , expected INSERT"
  /\ exists bp, parseInsert session_d_r "insert into" = Ok bp.
Proof.
  split.
  - destruct (parseInsert_fails_only_on_first_identifier session_d_r "") as [Herr _].
    apply Herr. reflexivity.
  - destruct (parseInsert_fails_only_on_first_identifier session_d_r "insert into")
      as [_ Hok].
    apply Hok. reflexivity.
Defined.

(** ** The rewriting as a whole *)

Lemma WalkSource_compose (f g : influxql.Measurement -> influxql.Measurement) :
  forall src : influxql.Source,
    influxql.WalkSource g (influxql.WalkSource f src)
    = influxql.WalkSource (fun m => g (f m)) src.
Proof.
  fix IH 1. intros [m|[srcs cl]]; simpl; [done|].
  do 2 f_equal.
  induction srcs as [|src srcs IHsrcs]; simpl; [done|].
  by rewrite IH, IHsrcs.
Qed.

Lemma WalkSource_ext (f g : influxql.Measurement -> influxql.Measurement) :
  (forall m, f m = g m) ->
  forall src : influxql.Source,
    influxql.WalkSource f src = influxql.WalkSource g src.
Proof.
  intros Hfg. fix IH 1. intros [m|[srcs cl]]; simpl; [by rewrite Hfg|].
  do 2 f_equal.
  induction srcs as [|src srcs IHsrcs]; simpl; [done|].
  by rewrite IH, IHsrcs.
Qed.

Lemma WalkSources_compose f g srcs :
  (forall m, g (f m) = g m) ->
  influxql.WalkSources g (influxql.WalkSources f srcs) = influxql.WalkSources g srcs.
Proof.
  intros Hgf. unfold influxql.WalkSources. rewrite List.map_map.
  apply List.map_ext; intros src.
  rewrite WalkSource_compose. by apply WalkSource_ext.
Qed.

Lemma qualify_idempotent c m : qualify c (qualify c m) = qualify c m.
Proof.
  unfold qualify, nonEmpty; simpl.
  destruct (String.eqb_spec (influxql.Database m) "") as [Hd|Hd];
    destruct (String.eqb_spec (influxql.RetentionPolicy m) "") as [Hr|Hr];
    destruct (String.eqb_spec (Database c) "") as [Hcd|Hcd];
    destruct (String.eqb_spec (RetentionPolicy c) "") as [Hcr|Hcr];
    simpl; rewrite ?Hd, ?Hr; simpl;
    repeat match goal with
           | |- context [String.eqb ?a ?b] => destruct (String.eqb_spec a b)
           end; simpl; try done; congruence.
Qed.

(** X9: rewriting a query that was already rewritten for the same session
    changes nothing. *)
Theorem rewriteSources_idempotent :
  forall (c : CommandLine) (pq : influxql.Query),
    rewriteSources c (rewriteSources c pq) = rewriteSources c pq.
Proof.
  intros c [stmts]. unfold rewriteSources; simpl. f_equal.
  rewrite List.map_map. apply List.map_ext.
  intros [[srcs cl]|text]; simpl; [|done].
  do 2 f_equal. apply WalkSources_compose, qualify_idempotent.
Qed.

(** X10: the rewriting touches nothing but the database and the retention
    policy of measurements: with these blanked, the rewritten statements
    are the parsed statements, one for one: same kinds, same order, same
    measurement names, same sub-queries, same other clauses. *)
Theorem rewriteSources_changes_scopes_only :
  forall (c : CommandLine) (pq : influxql.Query),
    List.map unscopedStatement (influxql.Statements (rewriteSources c pq))
    = List.map unscopedStatement (influxql.Statements pq).
Proof.
  intros c [stmts]. unfold rewriteSources; simpl.
  rewrite List.map_map. apply List.map_ext.
  intros [[srcs cl]|text]; simpl; [|done].
  do 2 f_equal. by apply WalkSources_compose.
Qed.

(** X11: when the session has both a database and a retention policy, every
    measurement of the sources of every SELECT statement names both after
    the rewriting. *)
Theorem rewriteSources_fully_qualifies :
  forall (c : CommandLine) (pq : influxql.Query),
    Database c <> "" ->
    RetentionPolicy c <> "" ->
    List.Forall
      (fun st => List.Forall fullyQualified (influxql.StatementMeasurements st))
      (influxql.Statements (rewriteSources c pq)).
Proof.
  intros c [stmts] Hdb Hrp. unfold rewriteSources; simpl.
  apply List.Forall_forall. intros st' [st [<- _]]%List.in_map_iff.
  rewrite rewriteStatement_measurements.
  apply List.Forall_forall. intros m' [m [<- _]]%List.in_map_iff.
  unfold fullyQualified, qualify, nonEmpty; simpl.
  destruct (String.eqb_spec (influxql.Database m) "");
    destruct (String.eqb_spec (influxql.RetentionPolicy m) "");
    destruct (String.eqb_spec (Database c) "");
    destruct (String.eqb_spec (RetentionPolicy c) ""); simpl; done.
Qed.

Lemma rewriteSources_fully_qualifies_witness :
  List.Forall
    (fun st => List.Forall fullyQualified (influxql.StatementMeasurements st))
    (influxql.Statements (rewriteSources session_d_r sampleQuery)).
Proof.
  apply (rewriteSources_fully_qualifies session_d_r sampleQuery); discriminate.
Defined.



(** ** Tags *)

Lemma string_le_total : Total string_le.
Proof. intros a b. unfold string_le. apply String.leb_total. Qed.

Lemma gatherTags_fold_Permutation (l : list (string * string)) (acc : list string) :
  foldl (fun acc kv => sortStrings (acc ++ [kv.1 +:+ "=" +:+ kv.2])) acc l
  ≡ₚ acc ++ List.map tagText l.
Proof.
  revert acc; induction l as [|kv l IH]; intros acc; simpl.
  - by rewrite app_nil_r.
  - rewrite IH. unfold sortStrings. rewrite merge_sort_Permutation.
    by rewrite <- app_assoc.
Qed.

Lemma gatherTags_fold_Sorted (l : list (string * string)) (acc : list string) :
  Sorted string_le acc ->
  Sorted string_le
    (foldl (fun acc kv => sortStrings (acc ++ [kv.1 +:+ "=" +:+ kv.2])) acc l).
Proof.
  revert acc; induction l as [|kv l IH]; intros acc Hacc; simpl; [done|].
  apply IH. unfold sortStrings.
  apply (@Sorted_merge_sort _ string_le _ string_le_total).
Qed.

(** X13: the tags of a series are written in ascending byte-wise order of
    their [key=value] texts, each entry of the tag map once, whatever order
    the map is gone through in. *)
Theorem gatherTags_sorted_entries :
  forall m : gmap string string,
    Sorted string_le (gatherTags (Some m))
    /\ gatherTags (Some m) ≡ₚ List.map tagText (map_to_list m).
Proof.
  intros m. unfold gatherTags. split.
  - apply gatherTags_fold_Sorted. constructor.
  - by rewrite gatherTags_fold_Permutation.
Qed.

Example gatherTags_sample :
  gatherTags (Some (<["host" := "a"]> (<["dc" := "x"]> (<["az" := "1"]> ∅))))
  = ["az=1"; "dc=x"; "host=a"].
Proof. vm_compute. reflexivity. Qed.

(** ** Results without series, repeated headers, csv *)

(** X14: a result without series has no header to suppress and leaves the
    header kept for comparison as it is; in csv format it writes nothing,
    and in column format it writes its messages and, unless it is the first
    result, a blank line. *)
Theorem result_without_series :
  forall (c : CommandLine) (prev : models.Row) (i : nat)
         (result : client.Result) (rest : list client.Result),
    client.Series result = [] ->
    nextHeaders prev result = prev
    /\ writeCSV_from c prev (result :: rest) = writeCSV_from c prev rest
    /\ writeColumns_from c prev i (result :: rest)
       = List.map (fun m => Direct (messageText m)) (client.Messages result)
         ++ (if (0 <? i)%nat then [Line ""] else [])
         ++ writeColumns_from c prev (S i) rest.
Proof.
  intros c prev i result rest Hs.
  assert (suppressHeaders prev result = false) as Hsup.
  { unfold suppressHeaders. by rewrite Hs. }
  assert (nextHeaders prev result = prev) as Hnext.
  { unfold nextHeaders. by rewrite Hs. }
  split; [done|]. split.
  - cbn [writeCSV_from]. rewrite Hnext. unfold formatResults. by rewrite Hs.
  - cbn [writeColumns_from]. rewrite Hnext, Hsup.
    unfold formatResults. by rewrite Hs.
Qed.

Lemma result_without_series_witness :
  writeColumns_from session_d_r (cpuRow []) 1
    [ {| client.Series := [];
         client.Messages := [ {| client.Level := "info"; client.Text := "done" |} ] |};
      cpuResult [[VInt 2]] ]
  = [ Direct ("info: done." +:+ String "010"%char EmptyString);
      Line "";
      Direct ("warning: slow." +:+ String "010"%char EmptyString);
      Line "2" ].
Proof.
  destruct (result_without_series session_d_r (cpuRow []) 1
              {| client.Series := [];
                 client.Messages := [ {| client.Level := "info"; client.Text := "done" |} ] |}
              [cpuResult [[VInt 2]]] eq_refl) as (_ & _ & Hcol).
  refine (eq_trans Hcol _). vm_compute. reflexivity.
Defined.

(** X15: of two results in a row whose first series have the same name,
    tags and columns, the headers of the second are suppressed, whatever
    came before them. *)
Theorem repeated_header_is_suppressed :
  forall (pre : list client.Result) (r1 r2 : client.Result)
         (first1 first2 : models.Row) (others1 others2 : list models.Row),
    client.Series r1 = first1 :: others1 ->
    client.Series r2 = first2 :: others2 ->
    models.Name first2 = models.Name first1 ->
    models.Tags first2 = models.Tags first1 ->
    models.Columns first2 = models.Columns first1 ->
    suppressHeaders (headersAfter zeroRow (pre ++ [r1])) r2 = true.
Proof.
  intros pre r1 r2 first1 first2 others1 others2 Hs1 Hs2 Hn Ht Hc.
  unfold headersAfter. rewrite foldl_app. simpl.
  fold (headersAfter zeroRow pre). set (prev := headersAfter zeroRow pre).
  apply suppressHeaders_sameHeader.
  exists first2, others2. split; [done|].
  unfold nextHeaders. rewrite Hs1.
  destruct (suppressHeaders prev r1) eqn:Hsup; simpl.
  - apply suppressHeaders_sameHeader in Hsup
      as (f & o & Hf & Hn1 & Ht1 & Hc1).
    rewrite Hs1 in Hf. injection Hf as <- <-.
    by rewrite Hn, Ht, Hc.
  - done.
Qed.

Lemma repeated_header_is_suppressed_witness :
  suppressHeaders
    (headersAfter zeroRow ([bareResult [[VInt 0]]] ++ [cpuResult [[VInt 1]]]))
    (cpuResult [[VInt 2]])
  = true.
Proof.
  apply (repeated_header_is_suppressed [bareResult [[VInt 0]]]
           (cpuResult [[VInt 1]]) (cpuResult [[VInt 2]])
           (cpuRow [[VInt 1]]) (cpuRow [[VInt 2]]) [] []); reflexivity.
Defined.

Lemma Split_Join_records (records : list (list string)) :
  List.Forall splittable records ->
  List.map (fun r => Split r "009"%char)
           (List.map (fun fields => Join fields tab) records)
  = records.
Proof.
  induction 1 as [|fields records [Hne Hfree] _ IH]; simpl; [done|].
  by rewrite Split_Join, IH.
Qed.

Lemma csv_value_lines_records (series : list models.Row) :
  List.Forall (fun row => List.Forall splittable (csvRecords row)) series ->
  List.map (fun r => Split r "009"%char)
    (List.flat_map
       (fun row =>
          List.map (fun v => Join (csvRecord row v) tab) (models.Values row))
       series)
  = List.flat_map csvValueRecords series.
Proof.
  induction 1 as [|row series Hrow _ IH]; simpl; [done|].
  rewrite List.map_app, IH. f_equal.
  unfold csvRecords in Hrow. apply List.Forall_cons_iff in Hrow as [_ Hvalues].
  unfold csvValueRecords.
  etransitivity; [|apply (Split_Join_records _ Hvalues)].
  by rewrite !List.map_map.
Qed.

Lemma csv_lines_records (series : list models.Row) :
  List.Forall (fun row => List.Forall splittable (csvRecords row)) series ->
  List.map (fun r => Split r "009"%char)
    (List.flat_map
       (fun row =>
          Join (csvHeader row) tab
          :: List.map (fun v => Join (csvRecord row v) tab) (models.Values row))
       series)
  = List.flat_map csvRecords series.
Proof.
  induction 1 as [|row series Hrow _ IH]; [done|].
  cbn [List.flat_map]. rewrite List.map_app, IH. f_equal.
  unfold csvRecords in *.
  etransitivity; [|apply (Split_Join_records _ Hrow)].
  cbn [List.map]. by rewrite !List.map_map.
Qed.

(** X16: in csv format, when no field of a result holds a tab and no record
    of it is without fields, the records handed to the csv writer for it
    are: the records of its rows of values alone if its first series has
    the header kept from the results before it, and otherwise, for each of
    its series, the header record followed by the records of its rows of
    values.  No blank record separates results. *)
Theorem writeCSV_records :
  forall (c : CommandLine) (pre : list client.Result) (result : client.Result)
         (post : list client.Result),
    Format c = "csv" ->
    List.Forall (fun row => List.Forall splittable (csvRecords row))
                (client.Series result) ->
    (sameHeader (headersAfter zeroRow pre) result ->
     writeCSV c {| client.Results := pre ++ result :: post |}
     = writeCSV c {| client.Results := pre |}
       ++ List.flat_map csvValueRecords (client.Series result)
       ++ writeCSV_from c (headersAfter zeroRow pre) post)
    /\ (~ sameHeader (headersAfter zeroRow pre) result ->
        writeCSV c {| client.Results := pre ++ result :: post |}
        = writeCSV c {| client.Results := pre |}
          ++ List.flat_map csvRecords (client.Series result)
          ++ writeCSV_from c (nextHeaders (headersAfter zeroRow pre) result) post).
Proof.
  intros c pre result post Hf Hrecords.
  unfold writeCSV; simpl. rewrite writeCSV_from_app. cbn [writeCSV_from].
  split; intros Hsame.
  - apply suppressHeaders_sameHeader in Hsame as Hsup.
    rewrite Hsup, formatResults_suppressed.
    rewrite (List.flat_map_ext _ _ (fun row => valueRows_csv c tab row Hf)).
    rewrite csv_value_lines_records by done.
    do 2 f_equal. unfold nextHeaders.
    destruct (client.Series result); [done | by rewrite Hsup].
  - assert (suppressHeaders (headersAfter zeroRow pre) result = false) as Hsup.
    { apply not_true_is_false. by rewrite suppressHeaders_sameHeader. }
    rewrite Hsup, (formatResults_csv _ _ _ Hf).
    by rewrite csv_lines_records.
Qed.

Lemma writeCSV_records_witness :
  writeCSV session_csv
    {| client.Results := [cpuResult [[VInt 1]]; cpuResult [[VInt 2]]; bareResult [[VInt 3]]] |}
  = [ ["name"; "tags"; "time"; "value"];
      ["cpu"; "dc=x,host=a"; "1"];
      ["cpu"; "dc=x,host=a"; "2"];
      [""];
      ["3"] ].
Proof.
  destruct (writeCSV_records session_csv [cpuResult [[VInt 1]]]
              (cpuResult [[VInt 2]]) [bareResult [[VInt 3]]] eq_refl) as [Hsame _].
  - repeat constructor; (discriminate || reflexivity).
  - refine (eq_trans (Hsame _) _); [|vm_compute; reflexivity].
    exists (cpuRow [[VInt 2]]), []. repeat split; vm_compute; reflexivity.
Defined.

(** X17: the comparison of headers is stricter than what is written: a
    series whose tag map is allocated but empty does not have the header of
    a series whose tag map is nil, although with the same name and columns
    both are headed by the same lines in column format and by the same
    record in csv format. *)
Theorem empty_tag_map_is_not_nil :
  forall (separator : string) (prev row : models.Row),
    models.Name row = models.Name prev ->
    models.Columns row = models.Columns prev ->
    models.Tags prev = None ->
    models.Tags row = Some ∅ ->
    headersEqual prev row = false
    /\ columnHeading separator row = columnHeading separator prev
    /\ csvHeader row = csvHeader prev.
Proof.
  intros separator prev row Hn Hc Hp Hr. split; [|split].
  - apply not_true_is_false. rewrite headersEqual_spec.
    intros (_ & Ht & _). congruence.
  - unfold columnHeading, hasTags. by rewrite Hn, Hc, Hp, Hr.
  - unfold csvHeader, hasTags. by rewrite Hn, Hc, Hp, Hr.
Qed.

Lemma empty_tag_map_is_not_nil_witness :
  headersEqual (bareRow [])
    {| models.Name := ""; models.Tags := Some ∅; models.Columns := None;
       models.Values := [] |}
  = false.
Proof.
  destruct (empty_tag_map_is_not_nil tab (bareRow [])
              {| models.Name := ""; models.Tags := Some ∅; models.Columns := None;
                 models.Values := [] |} eq_refl eq_refl eq_refl eq_refl)
    as [Hne _].
  exact Hne.
Defined.

(** ** The query language flag *)

(** X18: [Set] and [String] are inverse to each other on the two languages:
    setting the name of a language gives that language, a successful [Set]
    gives the language whose name was passed, and a failed [Set] leaves the
    flag as it was.  The name that [String] gives to any other value of the
    flag is refused by [Set]. *)
Theorem QueryLanguage_Set_String_round_trip :
  forall (l0 l : QueryLanguage) (s : string),
    ((l = QueryLanguageInfluxQL \/ l = QueryLanguageFlux) ->
     QueryLanguage_Set l0 (QueryLanguage_String l) = (l, None))
    /\ (QueryLanguage_Set l0 s = (l, None) -> QueryLanguage_String l = s)
    /\ (forall err, QueryLanguage_Set l0 s = (l, Some err) ->
                    l = l0 /\ err = NotSupported s)
    /\ (l <> QueryLanguageInfluxQL -> l <> QueryLanguageFlux ->
        QueryLanguage_Set l0 (QueryLanguage_String l)
        = (l0, Some (NotSupported (QueryLanguage_String l)))).
Proof.
  intros l0 l s. repeat split.
  - by intros [-> | ->].
  - unfold QueryLanguage_Set.
    destruct (String.eqb_spec s "influxql") as [->|_]; [by intros [= <-]|].
    destruct (String.eqb_spec s "flux") as [->|_]; [by intros [= <-]|].
    done.
  - revert H. unfold QueryLanguage_Set.
    destruct (String.eqb s "influxql"); [done|].
    destruct (String.eqb s "flux"); [done|]. by intros [= -> _].
  - revert H. unfold QueryLanguage_Set.
    destruct (String.eqb s "influxql"); [done|].
    destruct (String.eqb s "flux"); [done|]. by intros [= _ <-].
  - intros H0 H1. unfold QueryLanguage_String.
    destruct (N.eqb_spec l QueryLanguageInfluxQL); [done|].
    destruct (N.eqb_spec l QueryLanguageFlux); [done|].
    reflexivity.
Qed.

Lemma QueryLanguage_Set_String_round_trip_witness :
  QueryLanguage_Set QueryLanguageInfluxQL (QueryLanguage_String QueryLanguageFlux)
  = (QueryLanguageFlux, None)
  /\ QueryLanguage_String 7%N = "QueryLanguage(7)"
  /\ QueryLanguage_Set QueryLanguageFlux "QueryLanguage(7)"
     = (QueryLanguageFlux, Some (NotSupported "QueryLanguage(7)")).
Proof.
  destruct (QueryLanguage_Set_String_round_trip QueryLanguageInfluxQL
              QueryLanguageFlux "flux") as (Hset & _).
  destruct (QueryLanguage_Set_String_round_trip QueryLanguageFlux 7%N
              "QueryLanguage(7)") as (_ & _ & _ & Hother).
  split; [apply Hset; by right|]. split; [reflexivity|].
  apply Hother; discriminate.
Defined.

(** ** ASCII text under [ToLower], [TrimSpace] and [Fields] *)

Lemma isASCII_app a b : isASCII (a +:+ b) = isASCII a && isASCII b.
Proof.
  induction a as [|ch a IH]; [done|].
  rewrite append_cons. cbn [isASCII]. by rewrite IH, andb_assoc.
Qed.

Lemma mapBytes_app f a b : mapBytes f (a +:+ b) = mapBytes f a +:+ mapBytes f b.
Proof.
  induction a as [|ch a IH]; [done|].
  rewrite append_cons. cbn [mapBytes]. by rewrite IH, append_cons.
Qed.

Lemma lowerByte_ASCII ch : isASCIIByte (lowerByte ch) = isASCIIByte ch.
Proof. by destruct ch as [[] [] [] [] [] [] [] []]. Qed.

Lemma lowerByte_space ch : asciiSpace (lowerByte ch) = asciiSpace ch.
Proof. by destruct ch as [[] [] [] [] [] [] [] []]. Qed.

Lemma asciiSpace_ASCII ch : asciiSpace ch = true -> isASCIIByte ch = true.
Proof. by destruct ch as [[] [] [] [] [] [] [] []]. Qed.

Lemma isASCII_lower s : isASCII (mapBytes lowerByte s) = isASCII s.
Proof.
  induction s as [|ch s IH]; [done|].
  cbn [mapBytes isASCII]. by rewrite lowerByte_ASCII, IH.
Qed.

Lemma allSpace_lower s : allSpace (mapBytes lowerByte s) = allSpace s.
Proof.
  induction s as [|ch s IH]; [done|].
  cbn [mapBytes allSpace]. by rewrite lowerByte_space, IH.
Qed.

Lemma wordBytes_lower s : wordBytes (mapBytes lowerByte s) = wordBytes s.
Proof.
  induction s as [|ch s IH]; [done|].
  cbn [mapBytes wordBytes]. by rewrite lowerByte_ASCII, lowerByte_space, IH.
Qed.

Lemma isWord_lower s : isWord (mapBytes lowerByte s) = isWord s.
Proof. destruct s; [done|]. apply (wordBytes_lower (String _ _)). Qed.

Lemma endsWord_lower s : endsWord (mapBytes lowerByte s) = endsWord s.
Proof. destruct s; [done|]. apply lowerByte_space. Qed.

Lemma allSpace_ASCII s : allSpace s = true -> isASCII s = true.
Proof.
  induction s as [|ch s IH]; [done|]. cbn [allSpace isASCII].
  intros [Hch Hs]%andb_true_iff. by rewrite (asciiSpace_ASCII _ Hch), IH.
Qed.

Lemma wordBytes_ASCII s : wordBytes s = true -> isASCII s = true.
Proof.
  induction s as [|ch s IH]; [done|]. cbn [wordBytes isASCII].
  intros [[Ha _]%andb_true_iff Hs]%andb_true_iff. by rewrite Ha, IH.
Qed.

Lemma isWord_wordBytes w : isWord w = true -> wordBytes w = true.
Proof. by destruct w. Qed.

(** What the loop from the end leaves of an ASCII text: a text that is
    empty or starts as the text started. *)
Lemma trimSpaceEnd_ASCII s :
  isASCII s = true ->
  exists t, trimSpaceEnd s = inl t
            /\ isASCII t = true
            /\ endsWord t = (endsWord s || match t with EmptyString => true | _ => false end).
Proof.
  induction s as [|ch s IH]; intros Hs.
  - by exists EmptyString.
  - cbn [isASCII] in Hs. apply andb_true_iff in Hs as [Hch Hs].
    destruct (IH Hs) as (t & Ht & Hta & _).
    cbn [trimSpaceEnd]. rewrite Ht, Hch. cbn [negb].
    destruct t as [|c t].
    + destruct (asciiSpace ch) eqn:Hsp.
      * exists EmptyString. cbn. by rewrite ?Hsp.
      * exists (String ch EmptyString). cbn. by rewrite ?Hch, ?Hsp.
    + exists (String ch (String c t)). cbn [isASCII endsWord] in *.
      by rewrite Hch, Hta, orb_false_r.
Qed.

Lemma trimSpaceEnd_word w rest t :
  wordBytes w = true ->
  trimSpaceEnd rest = inl t ->
  w <> EmptyString ->
  trimSpaceEnd (w +:+ rest) = inl (w +:+ t).
Proof.
  intros Hw Ht. induction w as [|ch w IH]; [done|]. intros _.
  cbn [wordBytes] in Hw.
  apply andb_true_iff in Hw as [[Ha Hsp]%andb_true_iff Hw].
  apply negb_true_iff in Hsp.
  rewrite !append_cons. cbn [trimSpaceEnd].
  destruct w as [|c w].
  - rewrite !append_nil_l, Ht, Ha, Hsp. by destruct t.
  - rewrite IH by done. by rewrite append_cons.
Qed.

Section TextLemmas.

Variable U : UnicodePaths.

Lemma ToLower_ASCII s : isASCII s = true -> ToLower U s = mapBytes lowerByte s.
Proof. unfold ToLower. by intros ->. Qed.

Lemma TrimSpace_leading ws s :
  allSpace ws = true -> TrimSpace U (ws +:+ s) = TrimSpace U s.
Proof.
  induction ws as [|ch ws IH]; [done|]. cbn [allSpace].
  intros [Hch Hws]%andb_true_iff. rewrite append_cons. cbn [TrimSpace].
  by rewrite (asciiSpace_ASCII _ Hch), Hch, IH.
Qed.

(** Trimming a text that starts with a word and goes on in ASCII keeps the
    word and what follows it up to the last byte that is not a space. *)
Lemma TrimSpace_word w rest :
  isWord w = true ->
  isASCII rest = true ->
  exists t, TrimSpace U (w +:+ rest) = w +:+ t
            /\ isASCII t = true
            /\ endsWord t = (endsWord rest || match t with EmptyString => true | _ => false end).
Proof.
  intros Hw Hrest.
  destruct (trimSpaceEnd_ASCII rest Hrest) as (t & Ht & Hta & Hte).
  exists t. split; [|done].
  destruct w as [|ch w]; [done|]. cbn [isWord] in Hw.
  pose proof (trimSpaceEnd_word (String ch w) rest t Hw Ht) as Hend.
  cbn [wordBytes] in Hw.
  apply andb_true_iff in Hw as [[Ha Hsp]%andb_true_iff _].
  apply negb_true_iff in Hsp.
  rewrite append_cons. cbn [TrimSpace]. rewrite Ha, Hsp. cbn [negb].
  unfold TrimSpace_end. rewrite <- append_cons. by rewrite Hend.
Qed.

End TextLemmas.

Section DispatchLemmas.

Variable U : UnicodePaths.
Variable intSize : Z.

Let isSpace := fun (_ : unit) ch => (asciiSpace ch, tt).

Lemma FieldsFunc_from_word w fld rest :
  wordBytes w = true ->
  strings.FieldsFunc_from isSpace tt (Some fld) (w +:+ rest)
  = strings.FieldsFunc_from isSpace tt (Some (fld +:+ w)) rest.
Proof.
  revert fld; induction w as [|ch w IH]; intros fld Hw.
  - by rewrite append_nil_l, append_nil_r.
  - cbn [wordBytes] in Hw.
    apply andb_true_iff in Hw as [[_ Hsp]%andb_true_iff Hw].
    apply negb_true_iff in Hsp.
    rewrite append_cons. cbn [strings.FieldsFunc_from]. unfold isSpace at 1.
    rewrite Hsp, IH by done.
    by rewrite append_assoc', append_cons, append_nil_l.
Qed.

Lemma FieldsFunc_word w t :
  isWord w = true ->
  endsWord t = true ->
  exists more, strings.FieldsFunc isSpace tt (w +:+ t) = w :: more.
Proof.
  intros Hw Ht. destruct w as [|ch w]; [done|]. cbn [isWord wordBytes] in Hw.
  apply andb_true_iff in Hw as [[_ Hsp]%andb_true_iff Hw].
  apply negb_true_iff in Hsp.
  unfold strings.FieldsFunc. rewrite append_cons.
  cbn [strings.FieldsFunc_from]. unfold isSpace at 1. rewrite Hsp.
  rewrite FieldsFunc_from_word by done.
  rewrite append_cons, append_nil_l.
  destruct t as [|c t]; cbn [strings.FieldsFunc_from]; [by eexists|].
  cbn [endsWord] in Ht. unfold isSpace at 1. rewrite Ht. by eexists.
Qed.

Lemma Fields_word w t :
  isWord w = true ->
  isASCII t = true ->
  endsWord t = true ->
  exists more, Fields U (w +:+ t) = w :: more.
Proof.
  intros Hw Hta Ht. unfold Fields.
  rewrite isASCII_app, (wordBytes_ASCII _ (isWord_wordBytes _ Hw)), Hta.
  by apply FieldsFunc_word.
Qed.

(** The handler is chosen by the first word of the line, lower-cased. *)
Lemma ParseCommand_first_word c ws w rest :
  allSpace ws = true ->
  isWord w = true ->
  endsWord rest = true ->
  isASCII rest = true ->
  ParseCommand U intSize c (ws +:+ w +:+ rest)
  = route U intSize (mapBytes lowerByte w) c (ws +:+ w +:+ rest).
Proof.
  intros Hws Hw Hend Hrest. unfold ParseCommand.
  rewrite ToLower_ASCII.
  2:{ rewrite !isASCII_app, (allSpace_ASCII _ Hws),
        (wordBytes_ASCII _ (isWord_wordBytes _ Hw)), Hrest. done. }
  rewrite !mapBytes_app.
  rewrite TrimSpace_leading by by rewrite allSpace_lower.
  destruct (TrimSpace_word U (mapBytes lowerByte w) (mapBytes lowerByte rest))
    as (t & -> & Hta & Hte).
  { by rewrite isWord_lower. }
  { by rewrite isASCII_lower. }
  rewrite endsWord_lower, Hend in Hte.
  destruct (Fields_word (mapBytes lowerByte w) t) as (more & ->); try done.
  by rewrite isWord_lower.
Qed.

Lemma route_not_Blank token c cmd : route U intSize token c cmd <> Blank.
Proof.
  unfold route.
  repeat match goal with
         | |- context [if ?b then _ else _] => destruct b
         | |- context [let '(_, _) := ?p in _] => destruct p
         end; done.
Qed.

Lemma word_split s :
  isASCII s = true ->
  exists w rest,
    s = w +:+ rest /\ wordBytes w = true /\ endsWord rest = true
    /\ isASCII rest = true.
Proof.
  induction s as [|ch s IH]; intros Hs.
  - by exists EmptyString, EmptyString.
  - cbn [isASCII] in Hs. apply andb_true_iff in Hs as [Hch Hs].
    destruct (asciiSpace ch) eqn:Hsp.
    + exists EmptyString, (String ch s). cbn. by rewrite Hsp, Hch, Hs.
    + destruct (IH Hs) as (w & rest & -> & Hw & Hend & Hrest).
      exists (String ch w), rest. cbn. by rewrite Hch, Hsp, Hw.
Qed.

Lemma first_word_split s :
  isASCII s = true ->
  allSpace s = false ->
  exists ws w rest,
    s = ws +:+ w +:+ rest /\ allSpace ws = true /\ isWord w = true
    /\ endsWord rest = true /\ isASCII rest = true.
Proof.
  induction s as [|ch s IH]; intros Hs Hns; [done|].
  cbn [isASCII] in Hs. apply andb_true_iff in Hs as [Hch Hs].
  cbn [allSpace] in Hns.
  destruct (asciiSpace ch) eqn:Hsp.
  - destruct (IH Hs Hns) as (ws & w & rest & -> & Hws & Hw & Hend & Hrest).
    exists (String ch ws), w, rest. cbn [allSpace]. by rewrite Hsp, Hws.
  - destruct (word_split s Hs) as (w & rest & -> & Hw & Hend & Hrest).
    exists EmptyString, (String ch w), rest. cbn. by rewrite Hch, Hsp, Hw.
Qed.

Lemma ParseCommand_allSpace c cmd :
  allSpace cmd = true -> ParseCommand U intSize c cmd = Blank.
Proof.
  intros Hsp. unfold ParseCommand.
  rewrite ToLower_ASCII by by apply allSpace_ASCII.
  rewrite <- (append_nil_r (mapBytes lowerByte cmd)).
  rewrite TrimSpace_leading by by rewrite allSpace_lower.
  reflexivity.
Qed.

End DispatchLemmas.

(** ** The dispatcher *)

(** X19: on an ASCII line, [ParseCommand] returns [ErrBlankCommand] exactly
    when the line is empty or all spaces (space, tab, newline, vertical tab,
    form feed, carriage return). *)
Theorem ParseCommand_blank_line :
  forall (U : UnicodePaths) (intSize : Z) (c : CommandLine) (cmd : string),
    isASCII cmd = true ->
    (ParseCommand U intSize c cmd = Blank <-> allSpace cmd = true).
Proof.
  intros U intSize c cmd Hascii. split.
  - intros Hblank. destruct (allSpace cmd) eqn:Hsp; [done|].
    destruct (first_word_split cmd Hascii Hsp)
      as (ws & w & rest & -> & Hws & Hw & Hend & Hrest).
    rewrite ParseCommand_first_word in Hblank by done.
    by apply route_not_Blank in Hblank.
  - apply ParseCommand_allSpace.
Qed.

Lemma ParseCommand_blank_line_witness :
  ParseCommand noUnicode 64 session_d_r
    (String " " (String "009" (String "013" (String "010" EmptyString))))%char
  = Blank.
Proof.
  apply (ParseCommand_blank_line noUnicode 64 session_d_r
           (String " " (String "009" (String "013" (String "010" EmptyString))))%char);
    reflexivity.
Defined.

(** X20: on an ASCII line, the first word decides, in any case and after
    any leading spaces, and the method gets the line as it was typed: a
    first word that lower-cases to [insert] sends the line to [Insert], and
    a first word that is no meta-command sends it to [ExecuteQuery]. *)
Theorem ParseCommand_passes_line_as_typed :
  forall (U : UnicodePaths) (intSize : Z) (c : CommandLine)
         (ws w rest : string),
    allSpace ws = true ->
    isWord w = true ->
    endsWord rest = true ->
    isASCII rest = true ->
    (mapBytes lowerByte w = "insert" ->
     ParseCommand U intSize c (ws +:+ w +:+ rest) = Call Insert (ws +:+ w +:+ rest))
    /\ (oneOf (mapBytes lowerByte w) metaCommands = false ->
        ParseCommand U intSize c (ws +:+ w +:+ rest) = Call Query (ws +:+ w +:+ rest)).
Proof.
  intros U intSize c ws w rest Hws Hw Hend Hrest.
  rewrite ParseCommand_first_word by done. split.
  - by intros ->.
  - unfold oneOf, metaCommands. cbn [existsb]. intros Hno.
    repeat (apply orb_false_iff in Hno as [? Hno]).
    unfold route, oneOf. cbn [existsb].
    repeat match goal with H : String.eqb _ _ = false |- _ => rewrite H; clear H end.
    reflexivity.
Qed.

Lemma ParseCommand_passes_line_as_typed_witness :
  ParseCommand noUnicode 64 session_d_r (" " +:+ "InSeRt" +:+ " INTO Db.Rp Cpu value=1")
  = Call Insert (" " +:+ "InSeRt" +:+ " INTO Db.Rp Cpu value=1")
  /\ ParseCommand noUnicode 64 session_d_r ("" +:+ "SELECT" +:+ " * FROM Cpu")
     = Call Query ("" +:+ "SELECT" +:+ " * FROM Cpu").
Proof.
  destruct (ParseCommand_passes_line_as_typed noUnicode 64 session_d_r
              " " "InSeRt" " INTO Db.Rp Cpu value=1"
              eq_refl eq_refl eq_refl eq_refl) as [Hinsert _].
  destruct (ParseCommand_passes_line_as_typed noUnicode 64 session_d_r
              "" "SELECT" " * FROM Cpu"
              eq_refl eq_refl eq_refl eq_refl) as [_ Hquery].
  split; [apply Hinsert | apply Hquery]; reflexivity.
Defined.

Lemma HasPrefix_auth_other_case w t :
  mapBytes lowerByte w = "auth" ->
  w <> "auth" ->
  strings.HasPrefix (w +:+ t) "auth" = false.
Proof.
  intros Hlow Hne.
  destruct w as [|c1 [|c2 [|c3 [|c4 [|c5 w]]]]]; try discriminate Hlow.
  rewrite !append_cons, append_nil_l. cbn [strings.HasPrefix].
  destruct (Ascii.eqb_spec "a"%char c1) as [<-|]; [|done].
  destruct (Ascii.eqb_spec "u"%char c2) as [<-|]; [|done].
  destruct (Ascii.eqb_spec "t"%char c3) as [<-|]; [|done].
  destruct (Ascii.eqb_spec "h"%char c4) as [<-|]; [|done].
  done.
Qed.

(** X21: a line whose first word lower-cases to [auth] goes to [SetAuth];
    it is kept out of the history only if the word is typed in lower case:
    in any other case the line, passed through the sanitizer, is recorded. *)
Theorem auth_line_kept_out_of_history_in_lower_case_only :
  forall (U : UnicodePaths) (intSize : Z) (Sanitize : string -> string)
         (c : CommandLine) (ws w rest : string),
    allSpace ws = true ->
    isWord w = true ->
    endsWord rest = true ->
    isASCII rest = true ->
    mapBytes lowerByte w = "auth" ->
    ParseCommand U intSize c (ws +:+ w +:+ rest) = Call SetAuth (ws +:+ w +:+ rest)
    /\ (w = "auth" -> recorded U intSize Sanitize c (ws +:+ w +:+ rest) = None)
    /\ (w <> "auth" ->
        recorded U intSize Sanitize c (ws +:+ w +:+ rest)
        = Some (Sanitize (ws +:+ w +:+ rest))).
Proof.
  intros U intSize Sanitize c ws w rest Hws Hw Hend Hrest Hlow.
  assert (ParseCommand U intSize c (ws +:+ w +:+ rest)
          = Call SetAuth (ws +:+ w +:+ rest)) as Hcall.
  { rewrite ParseCommand_first_word by done. by rewrite Hlow. }
  split; [done|].
  unfold recorded. rewrite Hcall. cbn [negb andb].
  rewrite TrimSpace_leading by done.
  destruct (TrimSpace_word U w rest Hw Hrest) as (t & -> & _).
  split.
  - intros ->. by rewrite HasPrefix_app.
  - intros Hne. by rewrite HasPrefix_auth_other_case.
Qed.

Lemma auth_line_kept_out_of_history_in_lower_case_only_witness :
  recorded noUnicode 64 noSanitize session_d_r ("" +:+ "auth" +:+ " admin secret") = None
  /\ recorded noUnicode 64 noSanitize session_d_r ("" +:+ "AUTH" +:+ " admin secret")
     = Some ("" +:+ "AUTH" +:+ " admin secret").
Proof.
  destruct (auth_line_kept_out_of_history_in_lower_case_only noUnicode 64
              noSanitize session_d_r "" "auth" " admin secret"
              eq_refl eq_refl eq_refl eq_refl eq_refl) as (_ & Hlower & _).
  destruct (auth_line_kept_out_of_history_in_lower_case_only noUnicode 64
              noSanitize session_d_r "" "AUTH" " admin secret"
              eq_refl eq_refl eq_refl eq_refl eq_refl) as (_ & _ & Hupper).
  split; [apply Hlower; reflexivity | apply Hupper; discriminate].
Defined.

(** ** Format and precision *)






(** ** Numerals, [Split], [TrimSuffix] *)



















Section FieldsOfWords.

Let isSpace := fun (_ : unit) ch => (asciiSpace ch, tt).



End FieldsOfWords.


(** ** Chunk size, node, clear *)









(** ** Interrupts, and text given for execution *)

(** X27: when the transport fails with an empty message, the error reported
    is "aborted by user" exactly when signals are not ignored and the
    interrupt arrived; with signals ignored it is "no data received" even
    if the user interrupted. *)
Theorem ExecuteQuery_aborted_only_if_signals_relayed :
  forall (ParseQuery : string -> result influxql.Query)
         (QueryString : influxql.Query -> string)
         (QueryContext : client.Query -> result client.Response)
         (interrupted : bool) (c : CommandLine) (q q' : string),
    rewriteQuery ParseQuery QueryString c q = Ok q' ->
    QueryContext (query c q') = Err "" ->
    (ExecuteQuery ParseQuery QueryString QueryContext interrupted c q
     = QueryFailed (query c q') "aborted by user"
     <-> IgnoreSignals c = false /\ interrupted = true)
    /\ (IgnoreSignals c = true ->
        ExecuteQuery ParseQuery QueryString QueryContext interrupted c q
        = QueryFailed (query c q') "no data received").
Proof.
  intros PQ QS QC intr c q q' Hrw Hqc.
  unfold ExecuteQuery. rewrite Hrw, Hqc. unfold classifyError, ctxErr. cbn.
  destruct (IgnoreSignals c), intr; cbn; split; try done;
    split; try done; by intros [? ?].
Qed.

Lemma ExecuteQuery_aborted_only_if_signals_relayed_witness :
  ExecuteQuery sampleParser samplePrinter silentTransport true session_d_r "SELECT * FROM cpu"
  = QueryFailed (query session_d_r "d.r.cpu,other.weekly.mem") "aborted by user".
Proof.
  destruct (ExecuteQuery_aborted_only_if_signals_relayed sampleParser
              samplePrinter silentTransport true session_d_r "SELECT * FROM cpu"
              "d.r.cpu,other.weekly.mem" eq_refl eq_refl) as [Hiff _].
  apply Hiff. split; reflexivity.
Defined.




Example Run_execute_trailing_newline :
  Run_execute noUnicode 64 quietMethods session_d_r
    ("format csv" +:+ String "010"%char EmptyString)
  = (setFormat session_d_r "csv", Some ErrBlankCommand).
Proof. vm_compute. reflexivity. Qed.
